(** * Static Content Master: the six-task content graph

    A shallow embedding of [main.py] (the six agents and [create_graph]) and
    of the flow of [streamlit_app.py] (form handling, [create_initial_state],
    [generate_suggestions], [main]), with the properties stated about them.

    What lies outside the two files is taken as follows.
    - The chat model ([ChatGroq]) is an oracle: [invoke] maps a prompt to a
      reply, or raises.  The oracle is fixed for a run.
    - The six templates of [prompts.py] are parameters (class [Prompts]);
      a template is given in parsed form, as literal text and replacement
      fields, which is what [str.format] works on.
    - The compiled [StateGraph] of LangGraph is run by its superstep loop:
      an input that holds no key of the state is refused at the entry;
      the nodes with an edge from [START] run first, on the input; after a
      superstep, every node with an edge from a node that has just run is
      scheduled for the next one; the tasks of one superstep all read the
      state as it was when the superstep began, and their updates are
      applied together when all have returned. *)

From stdpp Require Import gmap strings list fin_maps.

#[local] Arguments String.append : simpl nomatch.

(** ** Exceptions and results *)

Inductive exn : Type :=
| KeyError (key : string)
| TypeError
| ModelError (msg : string)
| InvalidUpdateError
| GraphRecursionError
| Unrendered.

Inductive res (A : Type) : Type :=
| Ok (a : A)
| Raise (e : exn).

Arguments Ok {A} a.
Arguments Raise {A} e.

#[global] Instance res_ret : MRet res := λ A a, Ok a.

#[global] Instance res_bind : MBind res := λ A B f m,
  match m with
  | Ok a => f a
  | Raise e => Raise e
  end.

#[global] Instance exn_eq_dec : EqDecision exn.
Proof. solve_decision. Defined.

#[global] Instance res_eq_dec {A : Type} `{EqDecision A} : EqDecision (res A).
Proof. solve_decision. Defined.

Definition raises {A : Type} (m : res A) : bool :=
  match m with
  | Ok _ => false
  | Raise _ => true
  end.

(** [sequence] returns the values of a list of results, or the first
    exception. *)
Fixpoint sequence {A : Type} (ms : list (res A)) : res (list A) :=
  match ms with
  | [] => Ok []
  | m :: ms' => a ← m; l ← sequence ms'; Ok (a :: l)
  end.

(** ** Messages and state values *)

(** A message is a dict with the keys ["role"] and ["content"]. *)
Record Message : Type := { role : string; content : string }.

Definition assistant (text : string) : Message :=
  {| role := "assistant"; content := text |}.

(** [ContentState] declares two kinds of value: [ConfigValue] (a string) and
    [MessageList] (a list of messages).  The state itself is a dict from key
    to value; so is the update a task returns. *)
Inductive value : Type :=
| VStr (s : string)
| VList (l : list Message).

#[global] Instance Message_eq_dec : EqDecision Message.
Proof. solve_decision. Defined.

#[global] Instance value_eq_dec : EqDecision value.
Proof. solve_decision. Defined.

(** [state[key]] *)
Definition getitem (state : gmap string value) (key : string) : res value :=
  match state !! key with
  | Some v => Ok v
  | None => Raise (KeyError key)
  end.

(** [state.get(key, [])] *)
Definition get_default (state : gmap string value) (key : string) : value :=
  match state !! key with
  | Some v => v
  | None => VList []
  end.

(** [[msg["content"] for msg in v]]: a list gives the contents of its
    messages; iterating a string yields its characters, which cannot be
    indexed by ["content"], so only the empty string passes. *)
Definition contents (v : value) : res (list string) :=
  match v with
  | VList l => Ok (map content l)
  | VStr "" => Ok []
  | VStr _ => Raise TypeError
  end.

Definition newline : string := String (Ascii.ascii_of_nat 10) "".

(** ["\n".join([msg["content"] for msg in state.get(key, [])])] *)
Definition joined (state : gmap string value) (key : string) : res string :=
  l ← contents (get_default state key); Ok (String.concat newline l).

(** ** Templates and [str.format] *)

Inductive piece : Type :=
| Lit (text : string)
| Field (name : string).

Definition template : Type := list piece.

(** What [format] prints for a keyword argument.  A string prints as
    itself.  A list would print as its Python [repr]; no state reachable
    from [create_initial_state] holds a list under a positioning key, and the
    embedding stops there with [Unrendered]. *)
Definition render (v : value) : res string :=
  match v with
  | VStr s => Ok s
  | VList _ => Raise Unrendered
  end.

Fixpoint kwarg (name : string) (kwargs : list (string * value)) : option value :=
  match kwargs with
  | [] => None
  | (n, v) :: rest => if String.eqb name n then Some v else kwarg name rest
  end.

(** [template.format] with keyword arguments: the pieces are printed from left to right;
    a field that names no keyword argument raises [KeyError]; a keyword
    argument that no field names is ignored. *)
Fixpoint format (t : template) (kwargs : list (string * value)) : res string :=
  match t with
  | [] => Ok ""
  | Lit text :: t' => rest ← format t' kwargs; Ok (text +:+ rest)
  | Field name :: t' =>
      match kwarg name kwargs with
      | None => Raise (KeyError name)
      | Some v => s ← render v; rest ← format t' kwargs; Ok (s +:+ rest)
      end
  end.

(** The module [prompts]. *)
Class Prompts : Type := {
  FLAGSHIP_PROMPT : template;
  FLAGSHIP_REFLECTION_PROMPT : template;
  SEASONAL_PROMPT : template;
  SEASONAL_CONTENT_PROMPT : template;
  EVERGREEN_PROMPT : template;
  Edit_PROMPT : template
}.

(** The chat model handed to [create_graph]. *)
Record ChatModel : Type := { invoke : string → res string }.

(** ** The six agents *)

Section Agents.
Context `{Prompts}.
Variable model : ChatModel.

Definition flagship_prompt (state : gmap string value) : res string :=
  core_value_provided ← getitem state "core_value_provided";
  target_audience ← getitem state "target_audience";
  persona ← getitem state "persona";
  monetization ← getitem state "monetization";
  format FLAGSHIP_PROMPT
    [("core_value_provided", core_value_provided);
     ("target_audience", target_audience);
     ("persona", persona);
     ("monetization", monetization)].

Definition flagship (state : gmap string value) : res (gmap string value) :=
  prompt ← flagship_prompt state;
  response ← invoke model prompt;
  Ok {[ "flagship_messages" := VList [assistant response] ]}.

Definition flagship_reflection_prompt (state : gmap string value) : res string :=
  flagship_content ← joined state "flagship_messages";
  core_value_provided ← getitem state "core_value_provided";
  target_audience ← getitem state "target_audience";
  persona ← getitem state "persona";
  monetization ← getitem state "monetization";
  format FLAGSHIP_REFLECTION_PROMPT
    [("core_value_provided", core_value_provided);
     ("target_audience", target_audience);
     ("persona", persona);
     ("monetization", monetization);
     ("flagship_content", VStr flagship_content)].

Definition flagship_reflection (state : gmap string value) : res (gmap string value) :=
  prompt ← flagship_reflection_prompt state;
  response ← invoke model prompt;
  Ok {[ "flagship_reflection_messages" := VList [assistant response] ]}.

Definition seasonal_event_prompt (state : gmap string value) : res string :=
  core_value_provided ← getitem state "core_value_provided";
  target_audience ← getitem state "target_audience";
  persona ← getitem state "persona";
  monetization ← getitem state "monetization";
  format SEASONAL_PROMPT
    [("core_value_provided", core_value_provided);
     ("target_audience", target_audience);
     ("persona", persona);
     ("monetization", monetization)].

Definition seasonal_event (state : gmap string value) : res (gmap string value) :=
  prompt ← seasonal_event_prompt state;
  response ← invoke model prompt;
  Ok {[ "seasonal_event_messages" := VList [assistant response] ]}.

Definition seasonal_content_prompt (state : gmap string value) : res string :=
  seasonal_events ← joined state "seasonal_event_messages";
  core_value_provided ← getitem state "core_value_provided";
  target_audience ← getitem state "target_audience";
  persona ← getitem state "persona";
  monetization ← getitem state "monetization";
  format SEASONAL_CONTENT_PROMPT
    [("core_value_provided", core_value_provided);
     ("target_audience", target_audience);
     ("persona", persona);
     ("monetization", monetization);
     ("seasonal_events", VStr seasonal_events)].

Definition seasonal_content (state : gmap string value) : res (gmap string value) :=
  prompt ← seasonal_content_prompt state;
  response ← invoke model prompt;
  Ok {[ "seasonal_content_messages" := VList [assistant response] ]}.

Definition evergreen_prompt (state : gmap string value) : res string :=
  core_value_provided ← getitem state "core_value_provided";
  target_audience ← getitem state "target_audience";
  persona ← getitem state "persona";
  monetization ← getitem state "monetization";
  format EVERGREEN_PROMPT
    [("core_value_provided", core_value_provided);
     ("target_audience", target_audience);
     ("persona", persona);
     ("monetization", monetization)].

Definition evergreen (state : gmap string value) : res (gmap string value) :=
  prompt ← evergreen_prompt state;
  response ← invoke model prompt;
  Ok {[ "evergreen_messages" := VList [assistant response] ]}.

Definition editing_prompt (state : gmap string value) : res string :=
  flagship_content ← joined state "flagship_reflection_messages";
  seasonal_content ← joined state "seasonal_content_messages";
  evergreen_content ← joined state "evergreen_messages";
  core_value_provided ← getitem state "core_value_provided";
  target_audience ← getitem state "target_audience";
  persona ← getitem state "persona";
  monetization ← getitem state "monetization";
  format Edit_PROMPT
    [("core_value_provided", core_value_provided);
     ("target_audience", target_audience);
     ("persona", persona);
     ("monetization", monetization);
     ("flagship_content", VStr flagship_content);
     ("seasonal_content", VStr seasonal_content);
     ("evergreen_content", VStr evergreen_content)].

Definition editing (state : gmap string value) : res (gmap string value) :=
  prompt ← editing_prompt state;
  response ← invoke model prompt;
  Ok {[ "editing_messages" := VList [assistant response] ]}.

End Agents.

(** ** The state graph *)

Definition START : string := "__start__".
Definition END : string := "__end__".

Definition task : Type := gmap string value → res (gmap string value).

(** A [StateGraph] under construction: the keys of its state schema, the
    nodes in the order they were added, and the edges. *)
Record StateGraph : Type := {
  channels : list string;
  nodes : list (string * task);
  edges : list (string * string)
}.

(** The keys of [ContentState], in the order they are declared. *)
Definition ContentState : list string :=
  ["flagship_messages"; "flagship_reflection_messages";
   "seasonal_event_messages"; "seasonal_content_messages";
   "evergreen_messages"; "editing_messages";
   "core_value_provided"; "target_audience"; "monetization"; "persona"].

Definition new_StateGraph (schema : list string) : StateGraph :=
  {| channels := schema; nodes := []; edges := [] |}.

Definition add_node (name : string) (action : task) (graph : StateGraph) : StateGraph :=
  {| channels := channels graph;
     nodes := nodes graph ++ [(name, action)];
     edges := edges graph |}.

Definition add_edge (start_key end_key : string) (graph : StateGraph) : StateGraph :=
  {| channels := channels graph;
     nodes := nodes graph;
     edges := edges graph ++ [(start_key, end_key)] |}.

Section Graph.
Context `{Prompts}.

Definition create_graph (model : ChatModel) : StateGraph :=
  let graph := new_StateGraph ContentState in
  let graph := add_node "flagship" (flagship model) graph in
  let graph := add_node "flagship_reflection" (flagship_reflection model) graph in
  let graph := add_node "seasonal_event" (seasonal_event model) graph in
  let graph := add_node "seasonal_content" (seasonal_content model) graph in
  let graph := add_node "evergreen" (evergreen model) graph in
  let graph := add_node "editing" (editing model) graph in
  let graph := add_edge START "flagship" graph in
  let graph := add_edge START "seasonal_event" graph in
  let graph := add_edge START "evergreen" graph in
  let graph := add_edge "flagship" "flagship_reflection" graph in
  let graph := add_edge "flagship_reflection" "editing" graph in
  let graph := add_edge "seasonal_event" "seasonal_content" graph in
  let graph := add_edge "seasonal_content" "editing" graph in
  let graph := add_edge "evergreen" "editing" graph in
  let graph := add_edge "editing" END graph in
  graph.
End Graph.

(** ** Running the compiled graph *)

(** One superstep of a run: the state its tasks read, and what each task
    returned. *)
Record superstep : Type := {
  snapshot : gmap string value;
  results : list (string * res (gmap string value))
}.

#[global] Instance superstep_eq_dec : EqDecision superstep.
Proof. solve_decision. Defined.

(** The nodes to run after the nodes [ran] have run: those with an edge
    from one of them.  Every [add_edge] with a single source subscribes its
    target to that source alone, so a node with several such edges is
    scheduled as soon as one of its sources has run.  (Only [add_edge] with
    a list of sources makes the target wait for all of them; [create_graph]
    adds no such edge.) *)
Definition scheduled (graph : StateGraph) (ran : list string) : list (string * task) :=
  filter (λ node, Exists (λ start_key, (start_key, node.1) ∈ edges graph) ran)
         (nodes graph).

(** The part of a dict that falls under the schema. *)
Definition known (schema : list string) (d : gmap string value) : gmap string value :=
  filter (λ kv, kv.1 ∈ schema) d.

(** The updates of one superstep are applied together.  No key of
    [ContentState] has a reducer, so a key holds the last value written to
    it, and two tasks of one superstep writing the same key is an error. *)
Fixpoint apply_writes (schema : list string) (updates : list (gmap string value))
    (written : gset string) (state : gmap string value) : res (gmap string value) :=
  match updates with
  | [] => Ok state
  | update :: rest =>
      let writes := known schema update in
      if decide (dom writes ## written)
      then apply_writes schema rest (dom writes ∪ written) (writes ∪ state)
      else Raise InvalidUpdateError
  end.

Definition recursion_limit : nat := 25.

(** The superstep loop.  It returns the final state, or the exception that
    ended the run, together with the supersteps it went through. *)
Fixpoint pregel_loop (graph : StateGraph) (fuel : nat) (state : gmap string value)
    (todo : list (string * task)) : res (gmap string value) * list superstep :=
  match todo with
  | [] => (Ok state, [])
  | _ :: _ =>
      match fuel with
      | 0 => (Raise GraphRecursionError, [])
      | S fuel' =>
          let step := {| snapshot := state;
                         results := map (λ node, (node.1, node.2 state)) todo |} in
          match sequence (map snd (results step)) with
          | Raise e => (Raise e, [step])
          | Ok updates =>
              match apply_writes (channels graph) updates ∅ state with
              | Raise e => (Raise e, [step])
              | Ok state' =>
                  let (outcome, steps) :=
                    pregel_loop graph fuel' state' (scheduled graph (map fst todo)) in
                  (outcome, step :: steps)
              end
          end
      end
  end.

(** [graph.invoke(input)].  The entry of the graph writes the part of the
    input that falls under the schema; an input that holds no key of the
    schema is refused there, before any task runs. *)
Definition invoke_graph (graph : StateGraph) (input : gmap string value)
    : res (gmap string value) * list superstep :=
  if decide (known (channels graph) input = ∅)
  then (Raise InvalidUpdateError, [])
  else pregel_loop graph recursion_limit (known (channels graph) input)
                   (scheduled graph [START]).

(** ** The application *)

(** What the page shows, as far as the flow below is concerned. *)
Inductive ui_event : Type :=
| st_info (text : string)
| st_error (text : string)
| st_error_exn (text : string) (e : exn)
| st_success (text : string).

(** [get_api_key]: the value of the key input. *)
Definition get_api_key (api_key : string) : option string * list ui_event :=
  match api_key with
  | "" => (None, [st_info "Please add your Groq API key to continue."])
  | _ => (Some api_key, [])
  end.

(** The values of the widgets of the positioning form at a rerun. *)
Record positioning_form : Type := {
  core_value : string;
  target_audience : string;
  persona : string;
  monetization : string;
  submit_button : bool
}.

(** Truth value of a string: it is not empty. *)
Definition truthy (s : string) : bool :=
  match s with
  | "" => false
  | _ => true
  end.

Definition create_input_form (form : positioning_form)
    : option (gmap string string) * list ui_event :=
  if submit_button form then
    if negb (forallb truthy [core_value form; target_audience form;
                             persona form; monetization form])
    then (None, [st_error "Please fill in all fields before generating suggestions."])
    else (Some (<["core_value" := core_value form]>
               (<["target_audience" := target_audience form]>
               (<["persona" := persona form]>
               (<["monetization" := monetization form]> ∅)))), [])
  else (None, []).

(** [input_data[key]] *)
Definition input_item (input_data : gmap string string) (key : string) : res string :=
  match input_data !! key with
  | Some s => Ok s
  | None => Raise (KeyError key)
  end.

Definition create_initial_state (input_data : gmap string string)
    : res (gmap string value) :=
  core_value ← input_item input_data "core_value";
  target_audience ← input_item input_data "target_audience";
  persona ← input_item input_data "persona";
  monetization ← input_item input_data "monetization";
  Ok (<["flagship_messages" := VList []]>
     (<["flagship_reflection_messages" := VList []]>
     (<["seasonal_event_messages" := VList []]>
     (<["seasonal_content_messages" := VList []]>
     (<["evergreen_messages" := VList []]>
     (<["editing_messages" := VList []]>
     (<["core_value_provided" := VStr core_value]>
     (<["target_audience" := VStr target_audience]>
     (<["persona" := VStr persona]>
     (<["monetization" := VStr monetization]> ∅)))))))))).

(** One block of the collection in [generate_suggestions]:
    [if final_state.get(key): all_messages.append(header);
     all_messages.extend(final_state[key])].
    A missing key, an empty list and an empty string are all false.  A string
    that is not empty contradicts the declared type of the key; extending by
    it would put characters among the messages, and the embedding stops. *)
Definition add_section (header key : string) (final_state : gmap string value)
    (all_messages : list Message) : res (list Message) :=
  match final_state !! key with
  | None => Ok all_messages
  | Some (VList []) => Ok all_messages
  | Some (VList l) => Ok ((all_messages ++ [assistant header]) ++ l)
  | Some (VStr "") => Ok all_messages
  | Some (VStr _) => Raise Unrendered
  end.

Definition collect_messages (final_state : gmap string value) : res (list Message) :=
  let all_messages := [] in
  all_messages ← add_section "## Flagship Content Ideas"
                   "flagship_messages" final_state all_messages;
  all_messages ← add_section "## Top Flagship Content Analysis"
                   "flagship_reflection_messages" final_state all_messages;
  all_messages ← add_section "## Seasonal Events"
                   "seasonal_event_messages" final_state all_messages;
  all_messages ← add_section "## Seasonal Content Ideas"
                   "seasonal_content_messages" final_state all_messages;
  all_messages ← add_section "## Evergreen Content Ideas"
                   "evergreen_messages" final_state all_messages;
  all_messages ← add_section "## Content Strategy Summary"
                   "editing_messages" final_state all_messages;
  Ok all_messages.

(** What a call of [generate_suggestions] leaves behind: the value it
    returns, what it showed, and the supersteps of the run it started. *)
Record generation : Type := {
  suggestions : option (list Message);
  shown : list ui_event;
  supersteps : list superstep
}.

Section App.
Context `{Prompts}.
(** The constructor of the chat model, from the API key. *)
Variable ChatGroq : string → res ChatModel.

(** The body of the [try] runs until something raises; the handler shows
    the exception and returns [None]. *)
Definition generate_suggestions (api_key : string) (input_data : gmap string string)
    : generation :=
  let failed e steps seen :=
    {| suggestions := None;
       shown := seen ++ [st_error_exn "An error occurred while generating suggestions: " e];
       supersteps := steps |} in
  match ChatGroq api_key with
  | Raise e => failed e [] []
  | Ok chat_groq =>
      let graph := create_graph chat_groq in
      match create_initial_state input_data with
      | Raise e => failed e [] []
      | Ok initial_state =>
          match invoke_graph graph initial_state with
          | (Raise e, steps) => failed e steps []
          | (Ok final_state, steps) =>
              let seen := [st_success "Suggestions generated successfully!"] in
              match collect_messages final_state with
              | Raise e => failed e steps seen
              | Ok all_messages =>
                  {| suggestions := Some all_messages;
                     shown := seen;
                     supersteps := steps |}
              end
          end
      end
  end.

(** [main], from the key input on.  [displayed] is what the first tab
    prints: the suggestions, when there are any. *)
Record page : Type := {
  events : list ui_event;
  run : list superstep;
  displayed : option (list Message)
}.

Definition main (api_key_input : string) (form : positioning_form) : page :=
  match get_api_key api_key_input with
  | (None, seen) => {| events := seen; run := []; displayed := None |}
  | (Some api_key, seen) =>
      match create_input_form form with
      | (None, seen') => {| events := seen ++ seen'; run := []; displayed := None |}
      | (Some input_data, seen') =>
          if decide (input_data = ∅)
          then {| events := seen ++ seen'; run := []; displayed := None |}
          else
            let g := generate_suggestions api_key input_data in
            {| events := seen ++ seen' ++ shown g;
               run := supersteps g;
               displayed := match suggestions g with
                            | Some ((_ :: _) as l) => Some l
                            | _ => None
                            end |}
      end
  end.
End App.

(** ** Notions used in the statements *)

Definition positioning_keys : list string :=
  ["core_value_provided"; "target_audience"; "persona"; "monetization"].

Definition output_keys : list string :=
  ["flagship_messages"; "seasonal_event_messages"; "evergreen_messages";
   "flagship_reflection_messages"; "seasonal_content_messages";
   "editing_messages"].

(** The task table: task, the tasks it depends on, the key it produces. *)
Definition task_table : list (string * list string * string) :=
  [("flagship", [], "flagship_messages");
   ("seasonal_event", [], "seasonal_event_messages");
   ("evergreen", [], "evergreen_messages");
   ("flagship_reflection", ["flagship"], "flagship_reflection_messages");
   ("seasonal_content", ["seasonal_event"], "seasonal_content_messages");
   ("editing", ["flagship_reflection"; "seasonal_content"; "evergreen"],
    "editing_messages")].

(** [key] holds exactly [text]: one message, with that content. *)
Definition holds (state : gmap string value) (key text : string) : Prop :=
  ∃ r, state !! key = Some (VList [{| role := r; content := text |}]).

(** [key] is missing from the state, or holds the empty list. *)
Definition missing_or_empty (state : gmap string value) (key : string) : Prop :=
  state !! key = None ∨ state !! key = Some (VList []).

(** The four positioning fields are there, with these strings. *)
Definition positioned (state : gmap string value) (cv ta pe mo : string) : Prop :=
  state !! "core_value_provided" = Some (VStr cv) ∧
  state !! "target_audience" = Some (VStr ta) ∧
  state !! "persona" = Some (VStr pe) ∧
  state !! "monetization" = Some (VStr mo).

(** The names of the replacement fields of a template. *)
Fixpoint fields (t : template) : list string :=
  match t with
  | [] => []
  | Lit _ :: t' => fields t'
  | Field name :: t' => name :: fields t'
  end.

(** The literal texts of a template. *)
Fixpoint literals (t : template) : list string :=
  match t with
  | [] => []
  | Lit text :: t' => text :: literals t'
  | Field _ :: t' => literals t'
  end.

(** [s] occurs in [t]. *)
Definition occurs (s t : string) : Prop :=
  ∃ pre post, t = pre +:+ s +:+ post.

Fixpoint occursb (s t : string) : bool :=
  String.prefix s t ||
  match t with
  | "" => false
  | String _ t' => occursb s t'
  end.

(** The character [a] directly followed by [b] occurs in [s]. *)
Fixpoint has_pair (a b : Ascii.ascii) (s : string) : bool :=
  match s with
  | "" => false
  | String c s' =>
      (Ascii.eqb c a &&
       match s' with
       | String d _ => Ascii.eqb d b
       | "" => false
       end) || has_pair a b s'
  end.

Fixpoint has_char (a : Ascii.ascii) (s : string) : bool :=
  match s with
  | "" => false
  | String c s' => Ascii.eqb c a || has_char a s'
  end.

(** The last character of [s] is [a]. *)
Fixpoint ends_with (a : Ascii.ascii) (s : string) : bool :=
  match s with
  | "" => false
  | String c "" => Ascii.eqb c a
  | String _ s' => ends_with a s'
  end.

(** A string is clean for [a], [b] when [a] is never followed by [b] in it
    and is not its last character: appending clean strings makes no [a]
    followed by [b]. *)
Definition clean (a b : Ascii.ascii) (s : string) : bool :=
  negb (has_pair a b s) && negb (ends_with a s).

Definition colon : Ascii.ascii := Ascii.ascii_of_nat 58.
Definition letter_A : Ascii.ascii := Ascii.ascii_of_nat 65.
Definition letter_B : Ascii.ascii := Ascii.ascii_of_nat 66.

(** The names [editing] passes to [format]. *)
Definition editing_names : list string :=
  ["core_value_provided"; "target_audience"; "persona"; "monetization";
   "flagship_content"; "seasonal_content"; "evergreen_content"].

(** The names of the three content fields [editing] passes to [format]. *)
Definition content_fields : list string :=
  ["flagship_content"; "seasonal_content"; "evergreen_content"].

(** The stretches of a prompt around the fields [names]: what the literal
    texts and the other fields print before the first of these fields,
    between two of them, and after the last.  [current] is the stretch
    being read. *)
Fixpoint stretches (names : list string) (t : template)
    (kwargs : list (string * value)) (current : string) : list string :=
  match t with
  | [] => [current]
  | Lit text :: t' => stretches names t' kwargs (current +:+ text)
  | Field name :: t' =>
      if decide (name ∈ names) then current :: stretches names t' kwargs ""
      else
        match kwarg name kwargs with
        | Some (VStr s) => stretches names t' kwargs (current +:+ s)
        | _ => stretches names t' kwargs current
        end
  end.

Fixpoint last_char (s : string) : option Ascii.ascii :=
  match s with
  | "" => None
  | String c "" => Some c
  | String _ s' => last_char s'
  end.

(** Two texts that cannot overlap inside a longer text: the last character
    of each does not occur in the other. *)
Definition apart (s u : string) : Prop :=
  ∃ a b, last_char s = Some a ∧ has_char a u = false ∧
         last_char u = Some b ∧ has_char b s = false.

(** A text that brings no colon before [A] or [B] into a prompt: the colon
    is never followed by [A] or by [B] in it, and is not its last
    character. *)
Definition no_colon_pair (text : string) : Prop :=
  clean colon letter_A text = true ∧ clean colon letter_B text = true.

(** The line separator of the specification: the line feed, the character
    of code 10, which Python writes ["\n"]. *)
Definition line_separator : Ascii.ascii :=
  Ascii.Ascii false true false true false false false false.

(** The contents of the messages one after the other, with the line
    separator between two of them, and none before the first or after the
    last. *)
Fixpoint concatenated (messages : list Message) : string :=
  match messages with
  | [] => ""
  | msg :: rest =>
      match rest with
      | [] => content msg
      | _ :: _ => content msg +:+ String line_separator (concatenated rest)
      end
  end.

(** The prompt as the specification words it: the four positioning fields,
    and for each upstream task the contents of its messages joined by the
    line separator, substituted into the template. *)

Definition positioning_kwargs (cv ta pe mo : string) : list (string * value) :=
  [("core_value_provided", VStr cv); ("target_audience", VStr ta);
   ("persona", VStr pe); ("monetization", VStr mo)].

Definition spec_prompt (t : template) (cv ta pe mo : string)
    (upstream : list (string * list Message)) : res string :=
  format t
    (positioning_kwargs cv ta pe mo
     ++ map (λ u, (u.1, VStr (concatenated u.2))) upstream).

(** The tasks that have returned before superstep [i] of a run. *)
Definition returned_before (steps : list superstep) (i : nat) : list string :=
  concat (map (λ step, map fst (results step)) (take i steps)).

(** In a run, [node] never runs before [upstream] has returned. *)
Definition runs_after (steps : list superstep) (node upstream : string) : Prop :=
  ∀ i step, steps !! i = Some step →
    node ∈ map fst (results step) → upstream ∈ returned_before steps i.

(** The same, decided on the names of the tasks of each superstep, given
    the tasks that returned earlier. *)
Fixpoint never_early (earlier : list string) (ran : list (list string))
    (node upstream : string) : bool :=
  match ran with
  | [] => true
  | names :: rest =>
      (if bool_decide (node ∈ names) then bool_decide (upstream ∈ earlier) else true)
      && never_early (earlier ++ names) rest node upstream
  end.

(** The supersteps a graph goes through from the nodes [names], as long as
    no task raises: at most [fuel] of them. *)
Fixpoint schedule (graph : StateGraph) (fuel : nat) (names : list string)
    : list (list string) :=
  match names, fuel with
  | [], _ => []
  | _ :: _, 0 => []
  | _ :: _, S fuel' =>
      names :: schedule graph fuel' (map fst (scheduled graph names))
  end.

(** Running tasks one after the other, each on the state the previous ones
    left: the named nodes of a graph, in the given order. *)
Fixpoint run_in_order (graph : StateGraph) (order : list string)
    (state : gmap string value) : res (gmap string value) :=
  match order with
  | [] => Ok state
  | name :: rest =>
      match list_find (λ node, node.1 = name) (nodes graph) with
      | None => Raise (KeyError name)
      | Some (_, node) =>
          update ← node.2 state;
          run_in_order graph rest (known (channels graph) update ∪ state)
      end
  end.

(** The prompt builder of the task with the given node name. *)
Definition prompt_of `{Prompts} (name : string)
    : option (gmap string value → res string) :=
  if String.eqb name "flagship" then Some flagship_prompt
  else if String.eqb name "flagship_reflection" then Some flagship_reflection_prompt
  else if String.eqb name "seasonal_event" then Some seasonal_event_prompt
  else if String.eqb name "seasonal_content" then Some seasonal_content_prompt
  else if String.eqb name "evergreen" then Some evergreen_prompt
  else if String.eqb name "editing" then Some editing_prompt
  else None.

(** The output keys of the three generation tasks. *)
Definition generation_keys : list string :=
  ["flagship_messages"; "seasonal_event_messages"; "evergreen_messages"].

(** Two runs end alike: with the same state, or both with an exception. *)
Definition same_outcome (a b : res (gmap string value)) : Prop :=
  match a, b with
  | Ok x, Ok y => x = y
  | Raise _, Raise _ => True
  | _, _ => False
  end.

(** The supersteps' way of running tasks: all on the same state, the
    updates applied together. *)
Definition run_together (graph : StateGraph) (tasks : list task)
    (state : gmap string value) : res (gmap string value) :=
  updates ← sequence (map (λ t : task, t state) tasks);
  apply_writes (channels graph) updates ∅ state.

(** A task that can run in any order with the tasks writing [keys]: it is
    the node [name] of the graph, it returns one entry, under [key], and it
    returns the same whatever the state holds under [keys]. *)
Definition independent_task (graph : StateGraph) (keys : list string)
    (name key : string) (t : task) : Prop :=
  (∃ i, list_find (λ n : string * task, n.1 = name) (nodes graph)
          = Some (i, (name, t))) ∧
  key ∈ channels graph ∧
  (∀ s u, t s = Ok u → ∃ v, u = {[ key := v ]}) ∧
  (∀ k v s, k ∈ keys → t (<[k := v]> s) = t s).

(** Three updates laid over a state, the third uppermost. *)
Definition merge3 (ra rb rc : res (gmap string value)) (state : gmap string value)
    : res (gmap string value) :=
  ua ← ra; ub ← rb; uc ← rc; Ok (uc ∪ (ub ∪ (ua ∪ state))).

(** A section of the collected messages: nothing for an empty list, else
    the header and the list. *)
Definition section_of (header : string) (messages : list Message) : list Message :=
  match messages with
  | [] => []
  | _ :: _ => assistant header :: messages
  end.

(** The message list under a key, empty when the key is missing. *)
Definition messages_at (state : gmap string value) (key : string) : list Message :=
  match state !! key with
  | Some (VList l) => l
  | _ => []
  end.

(** The six sections, in the order the specification gives them. *)
Definition sections (final_state : gmap string value) : list Message :=
  section_of "## Flagship Content Ideas"
    (messages_at final_state "flagship_messages") ++
  section_of "## Top Flagship Content Analysis"
    (messages_at final_state "flagship_reflection_messages") ++
  section_of "## Seasonal Events"
    (messages_at final_state "seasonal_event_messages") ++
  section_of "## Seasonal Content Ideas"
    (messages_at final_state "seasonal_content_messages") ++
  section_of "## Evergreen Content Ideas"
    (messages_at final_state "evergreen_messages") ++
  section_of "## Content Strategy Summary"
    (messages_at final_state "editing_messages").

(** ** Sample templates, models and inputs *)

Definition sample_positioning : template :=
  [Field "core_value_provided"; Lit " / "; Field "target_audience"; Lit " / ";
   Field "persona"; Lit " / "; Field "monetization"].

Definition sample_prompts : Prompts := {|
  FLAGSHIP_PROMPT := Lit "flagship topics for " :: sample_positioning;
  FLAGSHIP_REFLECTION_PROMPT :=
    Lit "best of " :: Field "flagship_content" :: Lit " for " :: sample_positioning;
  SEASONAL_PROMPT := Lit "seasonal events for " :: sample_positioning;
  SEASONAL_CONTENT_PROMPT :=
    Lit "content on " :: Field "seasonal_events" :: Lit " for " :: sample_positioning;
  EVERGREEN_PROMPT := Lit "evergreen topics for " :: sample_positioning;
  Edit_PROMPT :=
    Lit "report on " :: Field "flagship_content" :: Lit " and " ::
    Field "seasonal_content" :: Lit " and " :: Field "evergreen_content" ::
    Lit " for " :: sample_positioning
|}.

(** A model that answers every prompt. *)
Definition echo : ChatModel :=
  {| invoke := λ prompt, Ok ("<" +:+ prompt +:+ ">") |}.

(** A model that fails on the prompts that begin with [start]. *)
Definition failing_on (start : string) : ChatModel :=
  {| invoke := λ prompt,
       if String.prefix start prompt then Raise (ModelError "rate limit")
       else Ok ("<" +:+ prompt +:+ ">") |}.

(** A superstep that never happened, for looking one up by position. *)
Definition no_step : superstep := {| snapshot := ∅; results := [] |}.

Definition sample_form : positioning_form :=
  {| core_value := "tools"; target_audience := "owners";
     persona := "guide"; monetization := "subscriptions";
     submit_button := true |}.

Definition sample_input : gmap string string :=
  <["core_value" := "tools"]>
  (<["target_audience" := "owners"]>
  (<["persona" := "guide"]>
  (<["monetization" := "subscriptions"]> ∅))).

Definition sample_state : gmap string value :=
  <["flagship_messages" := VList []]>
  (<["flagship_reflection_messages" := VList []]>
  (<["seasonal_event_messages" := VList []]>
  (<["seasonal_content_messages" := VList []]>
  (<["evergreen_messages" := VList []]>
  (<["editing_messages" := VList []]>
  (<["core_value_provided" := VStr "tools"]>
  (<["target_audience" := VStr "owners"]>
  (<["persona" := VStr "guide"]>
  (<["monetization" := VStr "subscriptions"]> ∅))))))))).

(** The state of the test with mock task outputs, with the given core
    value. *)
Definition mock_state (core_value : string) : gmap string value :=
  <["flagship_messages" := VList [assistant "flagship:A"]]>
  (<["seasonal_event_messages" := VList [assistant "seasonal_event:B"]]>
  (<["evergreen_messages" := VList [assistant "evergreen:C"]]>
  (<["flagship_reflection_messages" := VList [assistant "flagship_reflection:D"]]>
  (<["seasonal_content_messages" := VList [assistant "seasonal_content:E"]]>
  (<["editing_messages" := VList []]>
  (<["core_value_provided" := VStr core_value]>
  (<["target_audience" := VStr "owners"]>
  (<["persona" := VStr "guide"]>
  (<["monetization" := VStr "subscriptions"]> ∅))))))))).

(** A state in which every task has left two messages. *)
Definition two_message_state : gmap string value :=
  <["flagship_messages" := VList [assistant "guides"; assistant "checklists"]]>
  (<["seasonal_event_messages" := VList [assistant "spring"; assistant "autumn"]]>
  (<["evergreen_messages" := VList [assistant "basics"; assistant "mistakes"]]>
  (<["flagship_reflection_messages" :=
       VList [assistant "best guide"; assistant "best checklist"]]>
  (<["seasonal_content_messages" :=
       VList [assistant "spring sale"; assistant "autumn sale"]]>
  (<["editing_messages" := VList []]>
  (<["core_value_provided" := VStr "tools"]>
  (<["target_audience" := VStr "owners"]>
  (<["persona" := VStr "guide"]>
  (<["monetization" := VStr "subscriptions"]> ∅))))))))).

(** The key does not hold a string: it is missing or holds a message list,
    as [ContentState] declares. *)
Definition list_typed (state : gmap string value) (key : string) : Prop :=
  ∀ s, state !! key ≠ Some (VStr s).



(** Every replacement field of the template is one of [names]. *)
Definition well_formed (t : template) (names : list string) : Prop :=
  Forall (λ name, name ∈ names) (fields t).

(** ** The tabs of the page *)

(** What a tab prints. *)
Inductive tab_event : Type :=
| st_markdown (text : string)
| st_divider.

#[global] Instance tab_event_eq_dec : EqDecision tab_event.
Proof. solve_decision. Defined.

(** [display_messages]: every message is printed; a divider follows the
    messages that do not start with [#]. *)
Fixpoint display_messages (messages : list Message) : list tab_event :=
  match messages with
  | [] => []
  | msg :: rest =>
      (st_markdown (content msg) ::
       if negb (String.prefix "#" (content msg)) then [st_divider] else [])
      ++ display_messages rest
  end.

(** [any(header in text for header in headers)] *)
Definition any_header (headers : list string) (text : string) : bool :=
  existsb (λ header, occursb header text) headers.

(** The loop of [extract_section_content], from the point where
    [collecting] and the list of collected messages (the [content] of the
    source) have the given values. *)
Fixpoint extract_loop (start_headers end_headers : list string)
    (messages : list Message) (collecting : bool) (collected : list Message)
    : list Message :=
  match messages with
  | [] => collected
  | msg :: rest =>
      if String.eqb (role msg) "assistant" then
        if any_header start_headers (content msg) then
          extract_loop start_headers end_headers rest true (collected ++ [msg])
        else if any_header end_headers (content msg) then
          extract_loop start_headers end_headers rest false collected
        else if collecting then
          extract_loop start_headers end_headers rest collecting (collected ++ [msg])
        else
          extract_loop start_headers end_headers rest collecting collected
      else
        extract_loop start_headers end_headers rest collecting collected
  end.

Definition extract_section_content (messages : list Message)
    (start_headers end_headers : list string) : list Message :=
  extract_loop start_headers end_headers messages false [].

(** The contents of the four category tabs, as [main] extracts them from
    the suggestions. *)
Definition flagship_tab (suggestions : list Message) : list Message :=
  extract_section_content suggestions
    ["## Flagship Content Ideas"; "## Top Flagship Content Analysis"]
    ["## Seasonal Events"; "## Seasonal Content Ideas";
     "## Evergreen Content Ideas"; "## Content Strategy Summary"].

Definition seasonal_tab (suggestions : list Message) : list Message :=
  extract_section_content suggestions
    ["## Seasonal Events"; "## Seasonal Content Ideas"]
    ["## Evergreen Content Ideas"; "## Content Strategy Summary"].

Definition evergreen_tab (suggestions : list Message) : list Message :=
  extract_section_content suggestions
    ["## Evergreen Content Ideas"]
    ["## Content Strategy Summary"].

Definition summary_tab (suggestions : list Message) : list Message :=
  extract_section_content suggestions
    ["## Content Strategy Summary"]
    ["## END"].

(** What the five tabs print, under their titles. *)
Definition show_tabs (suggestions : list Message) : list (string * list tab_event) :=
  [("All Content", display_messages suggestions);
   ("Flagship", display_messages (flagship_tab suggestions));
   ("Seasonal", display_messages (seasonal_tab suggestions));
   ("Evergreen", display_messages (evergreen_tab suggestions));
   ("Summary", display_messages (summary_tab suggestions))].

(** The six section headers. *)
Definition section_headers : list string :=
  ["## Flagship Content Ideas"; "## Top Flagship Content Analysis";
   "## Seasonal Events"; "## Seasonal Content Ideas";
   "## Evergreen Content Ideas"; "## Content Strategy Summary"].

(** The markers the tabs scan for: the six headers, and the end marker of
    the summary tab. *)
Definition tab_markers : list string := section_headers ++ ["## END"].

(** The message is an assistant message whose text names no marker. *)
Definition plain (msg : Message) : Prop :=
  role msg = "assistant" ∧ any_header tab_markers (content msg) = false.

(** The message is an assistant message that is kept while collecting and
    passed over otherwise: it names no start header and no end header. *)
Definition unmarked (start_headers end_headers : list string) (msg : Message) : Prop :=
  role msg = "assistant" ∧
  any_header start_headers (content msg) = false ∧
  any_header end_headers (content msg) = false.

(** ** Further notions used in the statements *)

Definition input_keys : list string :=
  ["core_value"; "target_audience"; "persona"; "monetization"].

(** The first of the given keys that a dict lacks. *)
Definition first_missing {V : Type} (d : gmap string V) (keys : list string)
    : option string :=
  snd <$> list_find (λ key, d !! key = None) keys.

(** The model answers every prompt. *)
Definition answers (model : ChatModel) : Prop :=
  ∀ prompt, ∃ response, invoke model prompt = Ok response.

(** Each template names only the fields its task passes. *)
Definition templates_well_formed `{Prompts} : Prop :=
  well_formed FLAGSHIP_PROMPT positioning_keys ∧
  well_formed SEASONAL_PROMPT positioning_keys ∧
  well_formed EVERGREEN_PROMPT positioning_keys ∧
  well_formed FLAGSHIP_REFLECTION_PROMPT (positioning_keys ++ ["flagship_content"]) ∧
  well_formed SEASONAL_CONTENT_PROMPT (positioning_keys ++ ["seasonal_events"]) ∧
  well_formed Edit_PROMPT editing_names.

(** The state [create_initial_state] builds from the four strings. *)
Definition initial_state (cv ta pe mo : string) : gmap string value :=
  <["flagship_messages" := VList []]>
  (<["flagship_reflection_messages" := VList []]>
  (<["seasonal_event_messages" := VList []]>
  (<["seasonal_content_messages" := VList []]>
  (<["evergreen_messages" := VList []]>
  (<["editing_messages" := VList []]>
  (<["core_value_provided" := VStr cv]>
  (<["target_audience" := VStr ta]>
  (<["persona" := VStr pe]>
  (<["monetization" := VStr mo]> ∅))))))))).



(** * Properties *)

(** A closed decidable proposition, settled by evaluating its decision. *)
Ltac by_computing :=
  match goal with
  | |- ?P => apply (bool_decide_unpack P); vm_compute; exact I
  end.

(** Looking a key up under a pile of inserts with literal keys. *)
Ltac lookup_inserts :=
  repeat first [ rewrite lookup_insert_eq
               | rewrite lookup_insert_ne by by_computing ].

(** ** Results *)

Lemma bind_Ok {A B : Type} (m : res A) (f : A → res B) (b : B) :
  m ≫= f = Ok b ↔ ∃ a, m = Ok a ∧ f a = Ok b.
Proof.
  destruct m as [a|e]; simpl.
  - split; [intros Hf; exists a; auto | intros (a' & Ha & Hf); congruence].
  - split; [discriminate | intros (a' & Ha & _); discriminate].
Qed.

Lemma sequence_Ok {A : Type} (ms : list (res A)) (l : list A) :
  sequence ms = Ok l ↔ ms = map Ok l.
Proof.
  revert l. induction ms as [|m ms IH]; intros l; simpl.
  - destruct l; simpl; split; intros Heq; congruence.
  - destruct m as [a|e]; simpl.
    + destruct (sequence ms) as [l'|e] eqn:Hs; simpl.
      * destruct l as [|b l]; simpl; split; intros Heq; try discriminate.
        -- injection Heq as -> ->. f_equal. by apply IH.
        -- injection Heq as -> Hms. f_equal. apply IH in Hms. congruence.
      * split; [discriminate|].
        destruct l as [|b l]; simpl; intros Heq; [discriminate|].
        injection Heq as _ Hms. apply IH in Hms. discriminate.
    + split; [discriminate|]. destruct l; simpl; intros Heq; discriminate.
Qed.

Lemma sequence_Ok_raises {A : Type} (ms : list (res A)) (l : list A) :
  sequence ms = Ok l → ∀ m, m ∈ ms → raises m = false.
Proof.
  intros Hs m Hm. apply sequence_Ok in Hs. subst ms.
  apply list_elem_of_fmap in Hm as (a & -> & _). reflexivity.
Qed.

(** ** Strings *)

Lemma append_assoc (a b c : string) : (a +:+ b) +:+ c = a +:+ (b +:+ c).
Proof. induction a as [|x a IH]; simpl; [reflexivity | by rewrite IH]. Qed.

Lemma append_empty_r (a : string) : a +:+ "" = a.
Proof. induction a as [|x a IH]; simpl; [reflexivity | by rewrite IH]. Qed.

Lemma prefix_append (s t : string) :
  String.prefix s t = true ↔ ∃ post, t = s +:+ post.
Proof.
  revert t. induction s as [|c s IH]; intros t; simpl.
  - split; [intros _; by exists t | by destruct t].
  - destruct t as [|d t].
    + split; [discriminate | intros (post & Heq); discriminate].
    + simpl. destruct (Ascii.ascii_dec c d) as [->|Hne].
      * rewrite IH. split; intros (post & Heq); exists post; congruence.
      * split; [discriminate | intros (post & Heq); congruence].
Qed.

Lemma occursb_occurs (s t : string) : occursb s t = true ↔ occurs s t.
Proof.
  induction t as [|c t IH].
  - cbn [occursb]. rewrite orb_false_r, prefix_append. split.
    + intros (post & Heq). by exists "", post.
    + intros (pre & post & Heq). destruct pre; [by exists post | discriminate].
  - cbn [occursb]. rewrite orb_true_iff, prefix_append, IH. split.
    + intros [(post & Heq) | (pre & post & Heq)].
      * by exists "", post.
      * exists (String c pre), post. simpl. by rewrite Heq.
    + intros (pre & post & Heq). destruct pre as [|d pre].
      * left. by exists post.
      * right. exists pre, post. simpl in Heq. congruence.
Qed.

Lemma occurs_append_l (s a b : string) : occurs s a → occurs s (a +:+ b).
Proof.
  intros (pre & post & ->). exists pre, (post +:+ b).
  by rewrite !append_assoc.
Qed.

Lemma occurs_append_r (s a b : string) : occurs s b → occurs s (a +:+ b).
Proof.
  intros (pre & post & ->). exists (a +:+ pre), post.
  by rewrite !append_assoc.
Qed.

Lemma occurs_here (s b : string) : occurs s (s +:+ b).
Proof. by exists "", b. Qed.

(** ** Reading the state and formatting *)

(** Joining with ["\n"] puts the line separator between two contents. *)
Lemma concat_newline (l : list Message) :
  String.concat newline (map content l) = concatenated l.
Proof.
  induction l as [|msg rest IH]; [reflexivity|].
  destruct rest as [|msg' rest]; [reflexivity|].
  change (content msg +:+ (newline +:+ String.concat newline (map content (msg' :: rest)))
          = content msg +:+ String line_separator (concatenated (msg' :: rest))).
  by rewrite IH.
Qed.

Lemma joined_list_typed (state : gmap string value) (key : string) :
  list_typed state key →
  joined state key = Ok (concatenated (messages_at state key)).
Proof.
  unfold list_typed, joined, get_default, messages_at. intros Hty.
  destruct (state !! key) as [[s|l]|]; try reflexivity.
  - by destruct (Hty s).
  - cbn [contents mbind res_bind]. f_equal. apply concat_newline.
Qed.

Lemma missing_or_empty_list_typed (state : gmap string value) (key : string) :
  missing_or_empty state key → list_typed state key.
Proof. intros [Hk|Hk] s; rewrite Hk; discriminate. Qed.

Lemma messages_at_missing_or_empty (state : gmap string value) (key : string) :
  missing_or_empty state key → messages_at state key = [].
Proof. unfold messages_at. by intros [->| ->]. Qed.

Lemma kwarg_elem_of (name : string) (kwargs : list (string * value)) :
  name ∈ map fst kwargs → ∃ v, kwarg name kwargs = Some v ∧ v ∈ map snd kwargs.
Proof.
  induction kwargs as [|[n v] kwargs IH]; simpl; intros Hin.
  - by apply elem_of_nil in Hin.
  - destruct (String.eqb name n) eqn:Heq.
    + exists v. split; [reflexivity | apply list_elem_of_here].
    + apply elem_of_cons in Hin as [->|Hin].
      * by rewrite String.eqb_refl in Heq.
      * destruct (IH Hin) as (v' & Hk & Hv). exists v'.
        split; [done | by apply list_elem_of_further].
Qed.

Lemma kwarg_None (name : string) (kwargs : list (string * value)) :
  kwarg name kwargs = None ↔ name ∉ map fst kwargs.
Proof.
  induction kwargs as [|[n v] kwargs IH]; simpl.
  - split; [intros _; apply not_elem_of_nil | done].
  - rewrite not_elem_of_cons. destruct (String.eqb name n) eqn:Heq.
    + apply String.eqb_eq in Heq as ->. split; [discriminate | by intros [? _]].
    + apply String.eqb_neq in Heq. rewrite IH. tauto.
Qed.

(** Formatting cannot fail when the template names keyword arguments only
    and these are strings. *)
Lemma format_total (t : template) (kwargs : list (string * value)) :
  well_formed t (map fst kwargs) →
  Forall (λ v, ∃ s, v = VStr s) (map snd kwargs) →
  ∃ prompt, format t kwargs = Ok prompt.
Proof.
  unfold well_formed. intros Hwf Hstr.
  induction t as [|[text|name] t IH]; simpl in *.
  - by exists "".
  - destruct (IH Hwf) as (rest & ->). by exists (text +:+ rest).
  - apply Forall_cons in Hwf as [Hname Hwf].
    destruct (kwarg_elem_of _ _ Hname) as (v & -> & Hv).
    rewrite Forall_forall in Hstr. destruct (Hstr v Hv) as (s & ->).
    destruct (IH Hwf) as (rest & ->). by exists (s +:+ rest).
Qed.

Section Prompts.
Context `{Prompts}.

(** C8. With the positioning fields in place and the output keys typed as
    declared, the prompt of each of the six tasks is the prompt of the
    specification: the four positioning fields substituted into the task's
    template, together with, for [flagship_reflection], [seasonal_content]
    and [editing], the contents of the upstream message lists with a line
    feed between two of them ([concatenated], which is written with the
    character itself and not with the separator of the code); the three
    generation tasks substitute the positioning fields only. *)
Theorem prompts_follow_the_specification
    (state : gmap string value) (cv ta pe mo : string) :
  positioned state cv ta pe mo →
  (∀ key, key ∈ output_keys → list_typed state key) →
  flagship_prompt state = spec_prompt FLAGSHIP_PROMPT cv ta pe mo [] ∧
  seasonal_event_prompt state = spec_prompt SEASONAL_PROMPT cv ta pe mo [] ∧
  evergreen_prompt state = spec_prompt EVERGREEN_PROMPT cv ta pe mo [] ∧
  flagship_reflection_prompt state =
    spec_prompt FLAGSHIP_REFLECTION_PROMPT cv ta pe mo
      [("flagship_content", messages_at state "flagship_messages")] ∧
  seasonal_content_prompt state =
    spec_prompt SEASONAL_CONTENT_PROMPT cv ta pe mo
      [("seasonal_events", messages_at state "seasonal_event_messages")] ∧
  editing_prompt state =
    spec_prompt Edit_PROMPT cv ta pe mo
      [("flagship_content", messages_at state "flagship_reflection_messages");
       ("seasonal_content", messages_at state "seasonal_content_messages");
       ("evergreen_content", messages_at state "evergreen_messages")].
Proof.
  intros (Hcv & Hta & Hpe & Hmo) Hty.
  assert (Hjoin : ∀ key, key ∈ output_keys →
            joined state key = Ok (concatenated (messages_at state key))).
  { intros key Hkey. apply joined_list_typed, Hty, Hkey. }
  unfold flagship_prompt, seasonal_event_prompt, evergreen_prompt,
    flagship_reflection_prompt, seasonal_content_prompt, editing_prompt,
    spec_prompt, positioning_kwargs, getitem.
  rewrite !Hjoin by (unfold output_keys; set_solver).
  rewrite Hcv, Hta, Hpe, Hmo. simpl. repeat split; reflexivity.
Qed.

End Prompts.

Lemma prompts_follow_the_specification_witness :
  positioned two_message_state "tools" "owners" "guide" "subscriptions" ∧
  flagship_reflection_prompt (H := sample_prompts) two_message_state =
    Ok "best of guides
checklists for tools / owners / guide / subscriptions" ∧
  seasonal_content_prompt (H := sample_prompts) two_message_state =
    Ok "content on spring
autumn for tools / owners / guide / subscriptions" ∧
  editing_prompt (H := sample_prompts) two_message_state =
    Ok "report on best guide
best checklist and spring sale
autumn sale and basics
mistakes for tools / owners / guide / subscriptions".
Proof.
  assert (Hpos : positioned two_message_state "tools" "owners" "guide" "subscriptions").
  { repeat split; reflexivity. }
  split; [exact Hpos|].
  assert (Hty : ∀ key, key ∈ output_keys → list_typed two_message_state key).
  { intros key Hkey s. unfold output_keys in Hkey.
    repeat (apply elem_of_cons in Hkey as [->|Hkey]; [vm_compute; discriminate|]).
    by apply elem_of_nil in Hkey. }
  destruct (prompts_follow_the_specification (H := sample_prompts) _ _ _ _ _ Hpos Hty)
    as (_ & _ & _ & -> & -> & ->).
  repeat split; reflexivity.
Defined.

(** ** What a prompt contains *)

Lemma joined_holds (state : gmap string value) (key text : string) :
  holds state key text → joined state key = Ok text.
Proof. intros (r & Hk). unfold joined, get_default. by rewrite Hk. Qed.

Lemma joined_missing_or_empty (state : gmap string value) (key : string) :
  missing_or_empty state key → joined state key = Ok "".
Proof. unfold joined, get_default. by intros [->| ->]. Qed.

(** The text given for a field of the template occurs in the prompt. *)
Lemma format_occurs (t : template) (kwargs : list (string * value))
    (name s prompt : string) :
  format t kwargs = Ok prompt → name ∈ fields t →
  kwarg name kwargs = Some (VStr s) → occurs s prompt.
Proof.
  revert prompt. induction t as [|[text|n] t IH]; simpl; intros prompt Hf Hin Hk.
  - by apply elem_of_nil in Hin.
  - apply bind_Ok in Hf as (rest & Hrest & [= <-]).
    apply occurs_append_r. by apply IH.
  - destruct (kwarg n kwargs) as [v|] eqn:Hn; [|discriminate].
    apply bind_Ok in Hf as (s' & Hs' & Hf).
    apply bind_Ok in Hf as (rest & Hrest & [= <-]).
    apply elem_of_cons in Hin as [->|Hin].
    + rewrite Hk in Hn. injection Hn as <-. injection Hs' as <-.
      apply occurs_here.
    + apply occurs_append_r. by apply IH.
Qed.

Lemma clean_append (a b : Ascii.ascii) (x y : string) :
  clean a b x = true → clean a b y = true → clean a b (x +:+ y) = true.
Proof.
  unfold clean. rewrite !andb_true_iff, !negb_true_iff.
  intros [Hpx Hex] [Hpy Hey].
  induction x as [|c x IH]; simpl; [by split|].
  simpl in Hpx, Hex. apply orb_false_iff in Hpx as [Hc Hpx].
  destruct x as [|d x].
  - simpl in *. rewrite Hex. simpl. split; [exact Hpy|].
    destruct y; [reflexivity | exact Hey].
  - specialize (IH Hpx Hex) as [IHp IHe]. simpl in *.
    rewrite Hc, IHp. split; [reflexivity | exact IHe].
Qed.

Lemma has_pair_append_r (a b : Ascii.ascii) (x y : string) :
  has_pair a b y = true → has_pair a b (x +:+ y) = true.
Proof.
  intros Hy. induction x as [|c x IH]; simpl; [exact Hy|].
  rewrite IH. apply orb_true_r.
Qed.

Lemma has_pair_append_l (a b : Ascii.ascii) (x y : string) :
  has_pair a b x = true → has_pair a b (x +:+ y) = true.
Proof.
  induction x as [|c x IH]; simpl; [discriminate|].
  intros [Hc|Hx]%orb_true_iff.
  - destruct x as [|d x]; simpl in *.
    + by rewrite andb_false_r in Hc.
    + by rewrite Hc.
  - rewrite (IH Hx). apply orb_true_r.
Qed.

Lemma has_pair_occurs (a b : Ascii.ascii) (s t : string) :
  occurs s t → has_pair a b s = true → has_pair a b t = true.
Proof.
  intros (pre & post & ->) Hs.
  by apply has_pair_append_r, has_pair_append_l.
Qed.

(** A prompt made of clean literal texts and clean field texts is clean. *)
Lemma format_clean (a b : Ascii.ascii) (t : template)
    (kwargs : list (string * value)) (prompt : string) :
  format t kwargs = Ok prompt →
  Forall (λ text, clean a b text = true) (literals t) →
  (∀ name s, kwarg name kwargs = Some (VStr s) → clean a b s = true) →
  clean a b prompt = true.
Proof.
  intros Hf Hlit Hkw. revert prompt Hf.
  induction t as [|[text|n] t IH]; simpl in *; intros prompt Hf.
  - by injection Hf as <-.
  - apply Forall_cons in Hlit as [Htext Hlit].
    apply bind_Ok in Hf as (rest & Hrest & [= <-]).
    apply clean_append; [exact Htext | by apply IH].
  - destruct (kwarg n kwargs) as [[s|l]|] eqn:Hn; try discriminate.
    simpl in Hf. apply bind_Ok in Hf as (rest & Hrest & [= <-]).
    apply clean_append; [by apply (Hkw n) | by apply IH].
Qed.

Lemma append_eq_inv (a b c d : string) :
  a +:+ b = c +:+ d →
  (∃ k, a = c +:+ k ∧ d = k +:+ b) ∨ (∃ k, c = a +:+ k ∧ b = k +:+ d).
Proof.
  revert c. induction a as [|x a IH]; intros c Heq.
  - right. exists c. by split.
  - destruct c as [|y c].
    + left. exists (String x a). split; [reflexivity | exact (eq_sym Heq)].
    + simpl in Heq. injection Heq as -> Heq.
      destruct (IH c Heq) as [(k & -> & ->) | (k & -> & ->)].
      * left. by exists k.
      * right. by exists k.
Qed.

Lemma has_char_append (a : Ascii.ascii) (x y : string) :
  has_char a (x +:+ y) = has_char a x || has_char a y.
Proof.
  induction x as [|c x IH]; simpl; [reflexivity|].
  by rewrite IH, orb_assoc.
Qed.

Lemma last_char_has_char (a : Ascii.ascii) (s : string) :
  last_char s = Some a → has_char a s = true.
Proof.
  induction s as [|c s IH]; simpl; [discriminate|].
  destruct s as [|d s].
  - intros [= ->]. by rewrite Ascii.eqb_refl.
  - intros Hs. rewrite (IH Hs). apply orb_true_r.
Qed.

Lemma last_char_append (x : string) (c : Ascii.ascii) (y : string) :
  last_char (x +:+ String c y) = last_char (String c y).
Proof.
  induction x as [|d x IH]; [reflexivity|].
  change (String d x +:+ String c y) with (String d (x +:+ String c y)).
  destruct x as [|d' x]; [reflexivity|].
  exact IH.
Qed.

Lemma occurs_around (s x u y : string) :
  apart s u → occurs s (x +:+ (u +:+ y)) → occurs s x ∨ occurs s y.
Proof.
  intros (a & b & Has & Hau & Hbu & Hbs) (pre & post & Heq).
  apply append_eq_inv in Heq as [(k & Hx & Hk) | (k & Hpre & Hk)].
  - apply append_eq_inv in Hk as [(k' & Hs & Hk') | (k' & Hk1 & Hk2)].
    + destruct k' as [|c k'].
      * left. exists pre, "". rewrite append_empty_r in Hs. subst s.
        by rewrite append_empty_r.
      * exfalso. apply append_eq_inv in Hk' as [(k'' & Hu & _) | (k'' & Hk'' & _)].
        -- rewrite Hs, last_char_append in Has.
           apply last_char_has_char in Has.
           rewrite Hu, has_char_append, Has in Hau. discriminate.
        -- apply last_char_has_char in Hbu.
           rewrite Hs, Hk'', !has_char_append, Hbu, orb_true_r in Hbs.
           discriminate.
    + left. exists pre, k'. by rewrite Hx, Hk1.
  - apply append_eq_inv in Hk as [(k' & Hu & Hk') | (k' & Hk1 & Hk2)].
    + destruct k' as [|c k'].
      * right. exists "", post. by rewrite Hk'.
      * exfalso. apply append_eq_inv in Hk' as [(k2 & Hs & _) | (k2 & Hk2 & _)].
        -- rewrite Hu, last_char_append in Hbu.
           apply last_char_has_char in Hbu.
           rewrite Hs, has_char_append, Hbu in Hbs. discriminate.
        -- apply last_char_has_char in Has.
           rewrite Hu, Hk2, !has_char_append, Has, orb_true_r in Hau.
           discriminate.
    + right. exists k', post. exact Hk2.
Qed.

Lemma kwarg_app_other (name : string) (pos up : list (string * value)) :
  name ∉ map fst up → kwarg name (pos ++ up) = kwarg name pos.
Proof.
  intros Hname. induction pos as [|[n v] pos IH]; simpl.
  - by apply kwarg_None.
  - by rewrite IH.
Qed.

(** An occurrence of [s] in a prompt lies in one of the stretches around
    the fields [names], when no text given for one of these fields can
    overlap [s]. *)
Lemma format_stretches (s : string) (names : list string) (t : template)
    (kwargs pos : list (string * value)) :
  (∀ name v, name ∈ names → kwarg name kwargs = Some v → ∃ u, v = VStr u ∧ apart s u) →
  (∀ name, name ∉ names → kwarg name kwargs = kwarg name pos) →
  ∀ current rest, format t kwargs = Ok rest →
    occurs s (current +:+ rest) ↔
    ∃ stretch, stretch ∈ stretches names t pos current ∧ occurs s stretch.
Proof.
  intros Hin Hout.
  induction t as [|[text|name] t IH]; intros current rest Hformat; simpl in Hformat.
  - injection Hformat as <-. rewrite append_empty_r. cbn [stretches]. split.
    + intros Hocc. exists current. split; [apply list_elem_of_here | exact Hocc].
    + intros (stretch & Hst & Hocc). apply list_elem_of_singleton in Hst. by subst.
  - apply bind_Ok in Hformat as (rest' & Hrest & [= <-]).
    rewrite <- append_assoc. cbn [stretches]. by apply IH.
  - destruct (kwarg name kwargs) as [v|] eqn:Hname; [|discriminate].
    apply bind_Ok in Hformat as (text & Htext & Hformat).
    apply bind_Ok in Hformat as (rest' & Hrest & [= <-]).
    destruct v as [u|l]; [|discriminate]. injection Htext as <-.
    cbn [stretches]. destruct (decide (name ∈ names)) as [Hnames|Hnames].
    + destruct (Hin name (VStr u) Hnames Hname) as (u' & [= <-] & Hapart).
      specialize (IH "" rest' Hrest). simpl in IH. split.
      * intros Hocc. apply (occurs_around _ _ _ _ Hapart) in Hocc as [Hocc|Hocc].
        -- exists current. split; [apply list_elem_of_here | exact Hocc].
        -- apply IH in Hocc as (stretch & Hst & Hocc).
           exists stretch. split; [by apply list_elem_of_further | exact Hocc].
      * intros (stretch & Hst & Hocc). apply elem_of_cons in Hst as [->|Hst].
        -- by apply occurs_append_l.
        -- apply occurs_append_r, occurs_append_r, IH. by exists stretch.
    + rewrite <- (Hout name Hnames), Hname, <- append_assoc. by apply IH.
Qed.

Section EditingPrompt.
Context `{Prompts}.

Lemma editing_prompt_format (state : gmap string value)
    (cv ta pe mo fc sc ec : string) :
  positioned state cv ta pe mo →
  joined state "flagship_reflection_messages" = Ok fc →
  joined state "seasonal_content_messages" = Ok sc →
  joined state "evergreen_messages" = Ok ec →
  editing_prompt state =
    format Edit_PROMPT
      (positioning_kwargs cv ta pe mo ++
       [("flagship_content", VStr fc); ("seasonal_content", VStr sc);
        ("evergreen_content", VStr ec)]).
Proof.
  intros (Hcv & Hta & Hpe & Hmo) Hfc Hsc Hec.
  unfold editing_prompt, getitem.
  by rewrite Hfc, Hsc, Hec, Hcv, Hta, Hpe, Hmo.
Qed.

(** C1, as amended.  With the mock outputs D, E and C under the three keys
    the editing task reads, the positioning fields in place, and a
    template that names its three content fields (and no field that is not
    passed), the editing prompt is built and D, E and C occur in it.  The
    prompt does not depend on what [flagship_messages] and
    [seasonal_event_messages] hold.  The texts ["flagship:A"] and
    ["seasonal_event:B"] occur in the prompt only where the literal text of
    the template and the positioning fields spell them out: exactly when
    they occur in one of the stretches of the prompt before, between and
    after the three upstream texts.  In particular neither occurs when no
    positioning field and no literal text of the template has a colon
    directly before [A] or [B], or as its last character. *)
Theorem editing_prompt_on_mock_outputs
    (state : gmap string value) (cv ta pe mo : string) :
  holds state "flagship_reflection_messages" "flagship_reflection:D" →
  holds state "seasonal_content_messages" "seasonal_content:E" →
  holds state "evergreen_messages" "evergreen:C" →
  positioned state cv ta pe mo →
  well_formed Edit_PROMPT editing_names →
  "flagship_content" ∈ fields Edit_PROMPT →
  "seasonal_content" ∈ fields Edit_PROMPT →
  "evergreen_content" ∈ fields Edit_PROMPT →
  ∃ prompt,
    editing_prompt state = Ok prompt ∧
    occurs "flagship_reflection:D" prompt ∧
    occurs "seasonal_content:E" prompt ∧
    occurs "evergreen:C" prompt ∧
    (∀ a b, editing_prompt
              (<["flagship_messages" := a]>
                 (<["seasonal_event_messages" := b]> state)) = Ok prompt) ∧
    (∀ s, s ∈ ["flagship:A"; "seasonal_event:B"] →
       (occurs s prompt ↔
        ∃ stretch,
          stretch ∈ stretches content_fields Edit_PROMPT
                      (positioning_kwargs cv ta pe mo) "" ∧
          occurs s stretch)) ∧
    (Forall no_colon_pair (cv :: ta :: pe :: mo :: literals Edit_PROMPT) →
     ¬ occurs "flagship:A" prompt ∧ ¬ occurs "seasonal_event:B" prompt).
Proof.
  intros HD HE HC Hpos Hwf Hfc Hsc Hec.
  pose proof (editing_prompt_format state cv ta pe mo _ _ _ Hpos
                (joined_holds _ _ _ HD) (joined_holds _ _ _ HE)
                (joined_holds _ _ _ HC)) as Heq.
  destruct (format_total Edit_PROMPT
              (positioning_kwargs cv ta pe mo ++
               [("flagship_content", VStr "flagship_reflection:D");
                ("seasonal_content", VStr "seasonal_content:E");
                ("evergreen_content", VStr "evergreen:C")]))
    as (prompt & Hprompt).
  { exact Hwf. }
  { simpl. repeat (constructor; [by eexists|]). constructor. }
  exists prompt. rewrite Heq.
  split; [exact Hprompt|].
  split; [by apply (format_occurs _ _ "flagship_content" _ _ Hprompt Hfc)|].
  split; [by apply (format_occurs _ _ "seasonal_content" _ _ Hprompt Hsc)|].
  split; [by apply (format_occurs _ _ "evergreen_content" _ _ Hprompt Hec)|].
  split; [|split].
  - intros a b.
    rewrite (editing_prompt_format _ cv ta pe mo "flagship_reflection:D"
               "seasonal_content:E" "evergreen:C"); [exact Hprompt|..].
    + destruct Hpos as (Hcv & Hta & Hpe & Hmo).
      unfold positioned. by rewrite !lookup_insert_ne.
    + apply joined_holds. destruct HD as (r & HD). exists r.
      by rewrite !lookup_insert_ne.
    + apply joined_holds. destruct HE as (r & HE). exists r.
      by rewrite !lookup_insert_ne.
    + apply joined_holds. destruct HC as (r & HC). exists r.
      by rewrite !lookup_insert_ne.
  - intros s Hs.
    refine (format_stretches s content_fields Edit_PROMPT _
              (positioning_kwargs cv ta pe mo) _ _ "" prompt Hprompt).
    + intros name v Hname Hk.
      assert (Hv : v = VStr "flagship_reflection:D" ∨ v = VStr "seasonal_content:E" ∨
                   v = VStr "evergreen:C").
      { unfold content_fields in Hname.
        repeat (apply elem_of_cons in Hname as [->|Hname]);
          [..|by apply elem_of_nil in Hname];
          cbn in Hk; injection Hk as <-; auto. }
      clear Hk Hname.
      apply elem_of_cons in Hs as [->|Hs];
        [|apply list_elem_of_singleton in Hs as ->];
        destruct Hv as [->|[->| ->]];
        (eexists; split; [reflexivity|]); eexists _, _;
        (split; [reflexivity|split; [reflexivity|split; reflexivity]]).
    + intros name Hname. by apply kwarg_app_other.
  - intros Hfree.
    apply Forall_cons in Hfree as [Hcv Hfree].
    apply Forall_cons in Hfree as [Hta Hfree].
    apply Forall_cons in Hfree as [Hpe Hfree].
    apply Forall_cons in Hfree as [Hmo Hlit].
    assert (HcleanA : clean colon letter_A prompt = true).
    { eapply format_clean; [exact Hprompt|..].
      - eapply Forall_impl; [exact Hlit|]. by intros text [HA _].
      - intros name s. unfold positioning_kwargs. simpl.
        repeat (case_match; [intros [= <-];
          first [apply Hcv | apply Hta | apply Hpe | apply Hmo | reflexivity]|]).
        discriminate. }
    assert (HcleanB : clean colon letter_B prompt = true).
    { eapply format_clean; [exact Hprompt|..].
      - eapply Forall_impl; [exact Hlit|]. by intros text [_ HB].
      - intros name s. unfold positioning_kwargs. simpl.
        repeat (case_match; [intros [= <-];
          first [apply Hcv | apply Hta | apply Hpe | apply Hmo | reflexivity]|]).
        discriminate. }
    split; intros Hocc.
    + apply (has_pair_occurs colon letter_A) in Hocc; [|reflexivity].
      unfold clean in HcleanA. by rewrite Hocc in HcleanA.
    + apply (has_pair_occurs colon letter_B) in Hocc; [|reflexivity].
      unfold clean in HcleanB. by rewrite Hocc in HcleanB.
Qed.

End EditingPrompt.

Lemma editing_prompt_on_mock_outputs_witness :
  ∃ prompt,
    editing_prompt (H := sample_prompts) (mock_state "tone: friendly") = Ok prompt ∧
    occurs "flagship_reflection:D" prompt ∧
    occurs "seasonal_content:E" prompt ∧
    occurs "evergreen:C" prompt ∧
    stretches content_fields (Edit_PROMPT (Prompts := sample_prompts))
      (positioning_kwargs "tone: friendly" "owners" "guide" "subscriptions") "" =
      ["report on "; " and "; " and ";
       " for tone: friendly / owners / guide / subscriptions"] ∧
    ¬ occurs "flagship:A" prompt ∧ ¬ occurs "seasonal_event:B" prompt.
Proof.
  destruct (editing_prompt_on_mock_outputs (H := sample_prompts)
              (mock_state "tone: friendly") "tone: friendly" "owners" "guide"
              "subscriptions")
    as (prompt & Hp & HD & HE & HC & _ & _ & Hnot).
  - by exists "assistant".
  - by exists "assistant".
  - by exists "assistant".
  - repeat split; reflexivity.
  - unfold well_formed. simpl. repeat constructor.
  - simpl. repeat constructor.
  - simpl. repeat constructor.
  - simpl. repeat constructor.
  - exists prompt. repeat (split; [assumption|]).
    split; [reflexivity|].
    apply Hnot. simpl. repeat (constructor; [by split|]). constructor.
Defined.

(** C1, as stated, fails when a positioning field carries one of the texts:
    with the core value ["flagship:A"], the prompt of the sample template
    contains ["flagship:A"], which is in none of the three upstream texts. *)
Lemma editing_prompt_can_contain_flagship_A :
  holds (mock_state "flagship:A") "flagship_reflection_messages" "flagship_reflection:D" ∧
  holds (mock_state "flagship:A") "seasonal_content_messages" "seasonal_content:E" ∧
  holds (mock_state "flagship:A") "evergreen_messages" "evergreen:C" ∧
  holds (mock_state "flagship:A") "flagship_messages" "flagship:A" ∧
  holds (mock_state "flagship:A") "seasonal_event_messages" "seasonal_event:B" ∧
  editing_prompt (H := sample_prompts) (mock_state "flagship:A") =
    Ok "report on flagship_reflection:D and seasonal_content:E and evergreen:C for flagship:A / owners / guide / subscriptions" ∧
  occurs "flagship:A"
    "report on flagship_reflection:D and seasonal_content:E and evergreen:C for flagship:A / owners / guide / subscriptions" ∧
  ¬ occurs "flagship:A" "flagship_reflection:D" ∧
  ¬ occurs "flagship:A" "seasonal_content:E" ∧
  ¬ occurs "flagship:A" "evergreen:C".
Proof.
  repeat split; try (by exists "assistant").
  - by apply occursb_occurs.
  - intros Hocc. by apply occursb_occurs in Hocc.
  - intros Hocc. by apply occursb_occurs in Hocc.
  - intros Hocc. by apply occursb_occurs in Hocc.
Qed.

Section Downstream.
Context `{Prompts}.
Variable model : ChatModel.

(** C10. With the positioning fields in place, a downstream task whose
    upstream list is missing or empty builds its prompt with the empty
    string for the upstream text, and goes on to call the model with it:
    reading the state raises nothing, and the prompt is built whenever
    the template names no field beyond those passed.  For the editing
    task this holds for each of its three upstream lists on its own, the
    others being lists of any length. *)
Theorem downstream_tasks_tolerate_missing_upstream
    (state : gmap string value) (cv ta pe mo : string) :
  positioned state cv ta pe mo →
  (missing_or_empty state "flagship_messages" →
   well_formed FLAGSHIP_REFLECTION_PROMPT
     ["core_value_provided"; "target_audience"; "persona"; "monetization";
      "flagship_content"] →
   ∃ prompt,
     format FLAGSHIP_REFLECTION_PROMPT
       (positioning_kwargs cv ta pe mo ++ [("flagship_content", VStr "")])
       = Ok prompt ∧
     flagship_reflection_prompt state = Ok prompt ∧
     flagship_reflection model state =
       (response ← invoke model prompt;
        Ok {[ "flagship_reflection_messages" := VList [assistant response] ]})) ∧
  (missing_or_empty state "seasonal_event_messages" →
   well_formed SEASONAL_CONTENT_PROMPT
     ["core_value_provided"; "target_audience"; "persona"; "monetization";
      "seasonal_events"] →
   ∃ prompt,
     format SEASONAL_CONTENT_PROMPT
       (positioning_kwargs cv ta pe mo ++ [("seasonal_events", VStr "")])
       = Ok prompt ∧
     seasonal_content_prompt state = Ok prompt ∧
     seasonal_content model state =
       (response ← invoke model prompt;
        Ok {[ "seasonal_content_messages" := VList [assistant response] ]})) ∧
  (list_typed state "flagship_reflection_messages" →
   list_typed state "seasonal_content_messages" →
   list_typed state "evergreen_messages" →
   well_formed Edit_PROMPT editing_names →
   ∃ fc sc ec prompt,
     (missing_or_empty state "flagship_reflection_messages" → fc = "") ∧
     (missing_or_empty state "seasonal_content_messages" → sc = "") ∧
     (missing_or_empty state "evergreen_messages" → ec = "") ∧
     format Edit_PROMPT
       (positioning_kwargs cv ta pe mo ++
        [("flagship_content", VStr fc); ("seasonal_content", VStr sc);
         ("evergreen_content", VStr ec)]) = Ok prompt ∧
     editing_prompt state = Ok prompt ∧
     editing model state =
       (response ← invoke model prompt;
        Ok {[ "editing_messages" := VList [assistant response] ]})).
Proof.
  intros Hpos. pose proof Hpos as (Hcv & Hta & Hpe & Hmo).
  split; [|split].
  - intros Hup Hwf.
    destruct (format_total FLAGSHIP_REFLECTION_PROMPT
                (positioning_kwargs cv ta pe mo ++ [("flagship_content", VStr "")]))
      as (prompt & Hprompt).
    { exact Hwf. }
    { simpl. repeat (constructor; [by eexists|]). constructor. }
    assert (Heq : flagship_reflection_prompt state = Ok prompt).
    { unfold flagship_reflection_prompt, getitem.
      rewrite (joined_missing_or_empty _ _ Hup), Hcv, Hta, Hpe, Hmo.
      exact Hprompt. }
    exists prompt. repeat split; [exact Hprompt | exact Heq |].
    unfold flagship_reflection. by rewrite Heq.
  - intros Hup Hwf.
    destruct (format_total SEASONAL_CONTENT_PROMPT
                (positioning_kwargs cv ta pe mo ++ [("seasonal_events", VStr "")]))
      as (prompt & Hprompt).
    { exact Hwf. }
    { simpl. repeat (constructor; [by eexists|]). constructor. }
    assert (Heq : seasonal_content_prompt state = Ok prompt).
    { unfold seasonal_content_prompt, getitem.
      rewrite (joined_missing_or_empty _ _ Hup), Hcv, Hta, Hpe, Hmo.
      exact Hprompt. }
    exists prompt. repeat split; [exact Hprompt | exact Heq |].
    unfold seasonal_content. by rewrite Heq.
  - intros Hfr Hsc Hev Hwf.
    set (fc := concatenated (messages_at state "flagship_reflection_messages")).
    set (sc := concatenated (messages_at state "seasonal_content_messages")).
    set (ec := concatenated (messages_at state "evergreen_messages")).
    destruct (format_total Edit_PROMPT
                (positioning_kwargs cv ta pe mo ++
                 [("flagship_content", VStr fc); ("seasonal_content", VStr sc);
                  ("evergreen_content", VStr ec)]))
      as (prompt & Hprompt).
    { exact Hwf. }
    { simpl. repeat (constructor; [by eexists|]). constructor. }
    assert (Heq : editing_prompt state = Ok prompt).
    { rewrite (editing_prompt_format state cv ta pe mo fc sc ec Hpos);
        [exact Hprompt | by apply joined_list_typed..]. }
    exists fc, sc, ec, prompt.
    split; [intros Hm; unfold fc; by rewrite messages_at_missing_or_empty|].
    split; [intros Hm; unfold sc; by rewrite messages_at_missing_or_empty|].
    split; [intros Hm; unfold ec; by rewrite messages_at_missing_or_empty|].
    split; [exact Hprompt|]. split; [exact Heq|].
    unfold editing. by rewrite Heq.
Qed.

End Downstream.

Lemma downstream_tasks_tolerate_missing_upstream_witness :
  missing_or_empty sample_state "flagship_messages" ∧
  flagship_reflection (H := sample_prompts) echo sample_state =
    Ok {[ "flagship_reflection_messages" :=
            VList [assistant "<best of  for tools / owners / guide / subscriptions>"] ]}.
Proof.
  split; [by right|].
  destruct (downstream_tasks_tolerate_missing_upstream (H := sample_prompts) echo
              sample_state "tools" "owners" "guide" "subscriptions")
    as (Hfr & _ & _).
  { repeat split; reflexivity. }
  destruct Hfr as (prompt & Hf & _ & ->).
  { by right. }
  { unfold well_formed. simpl. repeat constructor. }
  vm_compute in Hf. injection Hf as <-. reflexivity.
Defined.

(** ** The superstep loop *)

Lemma pregel_loop_done (graph : StateGraph) (fuel : nat) (state : gmap string value) :
  pregel_loop graph fuel state [] = (Ok state, []).
Proof. by destruct fuel. Qed.

Lemma pregel_loop_step (graph : StateGraph) (fuel : nat)
    (state : gmap string value) (node : string * task) (todo : list (string * task)) :
  pregel_loop graph (S fuel) state (node :: todo) =
    let step := {| snapshot := state;
                   results := map (λ node, (node.1, node.2 state)) (node :: todo) |} in
    match sequence (map snd (results step)) with
    | Raise e => (Raise e, [step])
    | Ok updates =>
        match apply_writes (channels graph) updates ∅ state with
        | Raise e => (Raise e, [step])
        | Ok state' =>
            let (outcome, steps) :=
              pregel_loop graph fuel state'
                (scheduled graph (map fst (node :: todo))) in
            (outcome, step :: steps)
        end
    end.
Proof. reflexivity. Qed.

(** In a run that ends well, no task has raised. *)
Lemma pregel_loop_Ok_no_raise (graph : StateGraph) (fuel : nat)
    (state final : gmap string value) (todo : list (string * task))
    (steps : list superstep) :
  pregel_loop graph fuel state todo = (Ok final, steps) →
  ∀ step, step ∈ steps → ∀ r, r ∈ results step → raises r.2 = false.
Proof.
  revert state todo steps.
  induction fuel as [|fuel IH]; intros state todo steps Hrun step Hstep r Hr.
  - destruct todo; simpl in Hrun; [|discriminate].
    injection Hrun as _ <-. by apply elem_of_nil in Hstep.
  - destruct todo as [|node todo].
    + rewrite pregel_loop_done in Hrun. injection Hrun as _ <-.
      by apply elem_of_nil in Hstep.
    + rewrite pregel_loop_step in Hrun. cbv zeta in Hrun.
      destruct (sequence _) as [updates|e] eqn:Hseq; [|discriminate].
      destruct (apply_writes _ _ _ _) as [state'|e]; [|discriminate].
      destruct (pregel_loop graph fuel state' _) as [outcome steps'] eqn:Hrest.
      injection Hrun as -> <-.
      apply elem_of_cons in Hstep as [->|Hstep].
      * apply (sequence_Ok_raises _ _ Hseq).
        apply list_elem_of_fmap. by exists r.
      * by eapply IH.
Qed.

Lemma scheduled_subseteq (graph : StateGraph) (ran : list string) :
  scheduled graph ran ⊆ nodes graph.
Proof. intros node Hnode. unfold scheduled in Hnode. by apply list_elem_of_filter in Hnode as [_ ?]. Qed.

Lemma apply_writes_frame (schema : list string) (updates : list (gmap string value))
    (written : gset string) (state state' : gmap string value) (key : string) :
  Forall (λ update, update !! key = None) updates →
  apply_writes schema updates written state = Ok state' →
  state' !! key = state !! key.
Proof.
  revert written state. induction updates as [|update updates IH];
    intros written state Hnone Happly; simpl in Happly.
  - by injection Happly as <-.
  - apply Forall_cons in Hnone as [Hkey Hnone].
    case_decide; [|discriminate].
    rewrite (IH _ _ Hnone Happly).
    rewrite lookup_union_r; [reflexivity|].
    unfold known. apply map_lookup_filter_None. by left.
Qed.

(** A key that no task of the graph writes keeps its value through the run. *)
Lemma pregel_loop_frame (graph : StateGraph) (key : string) (fuel : nat)
    (state final : gmap string value) (todo : list (string * task))
    (steps : list superstep) :
  (∀ node s update, node ∈ nodes graph → node.2 s = Ok update → update !! key = None) →
  todo ⊆ nodes graph →
  pregel_loop graph fuel state todo = (Ok final, steps) →
  final !! key = state !! key.
Proof.
  intros Hnodes. revert state todo steps.
  induction fuel as [|fuel IH]; intros state todo steps Htodo Hrun.
  - destruct todo; simpl in Hrun; [|discriminate]. by injection Hrun as <- _.
  - destruct todo as [|node todo].
    + rewrite pregel_loop_done in Hrun. by injection Hrun as <- _.
    + rewrite pregel_loop_step in Hrun. cbv zeta in Hrun.
      destruct (sequence _) as [updates|e] eqn:Hseq; [|discriminate].
      destruct (apply_writes _ _ _ _) as [state'|e] eqn:Happly; [|discriminate].
      destruct (pregel_loop graph fuel state' _) as [outcome steps'] eqn:Hrest.
      injection Hrun as -> _.
      rewrite (IH _ _ _ (scheduled_subseteq _ _) Hrest).
      eapply apply_writes_frame; [|exact Happly].
      apply sequence_Ok in Hseq. cbn [results] in Hseq.
      rewrite Forall_forall. intros update Hupdate.
      assert (Hin : Ok update ∈ map Ok updates) by (apply list_elem_of_fmap; eauto).
      rewrite <- Hseq in Hin.
      apply list_elem_of_fmap in Hin as (r & Hr & Hrin).
      apply list_elem_of_fmap in Hrin as (n & -> & Hn).
      simpl in Hr. symmetry in Hr. eapply Hnodes; [|exact Hr]. by apply Htodo.
Qed.

(** A run is refused at the entry, or it is the superstep loop on the part
    of the input that falls under the schema. *)
Lemma invoke_graph_run (graph : StateGraph) (input : gmap string value)
    (outcome : res (gmap string value)) (steps : list superstep) :
  invoke_graph graph input = (outcome, steps) →
  (known (channels graph) input = ∅ ∧
   outcome = Raise InvalidUpdateError ∧ steps = []) ∨
  (known (channels graph) input ≠ ∅ ∧
   pregel_loop graph recursion_limit (known (channels graph) input)
     (scheduled graph [START]) = (outcome, steps)).
Proof.
  unfold invoke_graph. intros Hrun. case_decide as Hempty.
  - left. by injection Hrun as <- <-.
  - by right.
Qed.

Lemma invoke_graph_Ok (graph : StateGraph) (input final : gmap string value)
    (steps : list superstep) :
  invoke_graph graph input = (Ok final, steps) →
  pregel_loop graph recursion_limit (known (channels graph) input)
    (scheduled graph [START]) = (Ok final, steps).
Proof.
  intros Hrun.
  apply invoke_graph_run in Hrun as [(_ & Hout & _) | (_ & Hrun)];
    [discriminate | exact Hrun].
Qed.

(** ** The six-task graph *)

Lemma apply_writes_singleton (schema : list string) (key : string) (v : value)
    (rest : list (gmap string value)) (written : gset string)
    (state : gmap string value) :
  key ∈ schema → key ∉ written →
  apply_writes schema ({[ key := v ]} :: rest) written state =
    apply_writes schema rest ({[ key ]} ∪ written) (<[ key := v ]> state).
Proof.
  intros Hschema Hfresh. simpl. unfold known.
  rewrite map_filter_singleton_True by exact Hschema.
  rewrite dom_singleton_L.
  rewrite decide_True by set_solver.
  by rewrite insert_union_singleton_l.
Qed.

Section SixTasks.
Variable graph : StateGraph.
Variables f fr se sc ev ed : task.

Hypothesis graph_channels : channels graph = ContentState.
Hypothesis graph_nodes :
  nodes graph =
    [("flagship", f); ("flagship_reflection", fr); ("seasonal_event", se);
     ("seasonal_content", sc); ("evergreen", ev); ("editing", ed)].
Hypothesis graph_edges :
  edges graph =
    [(START, "flagship"); (START, "seasonal_event"); (START, "evergreen");
     ("flagship", "flagship_reflection"); ("flagship_reflection", "editing");
     ("seasonal_event", "seasonal_content"); ("seasonal_content", "editing");
     ("evergreen", "editing"); ("editing", END)].

Lemma scheduled_at_start :
  scheduled graph [START] =
    [("flagship", f); ("seasonal_event", se); ("evergreen", ev)].
Proof. unfold scheduled. rewrite graph_nodes, graph_edges. reflexivity. Qed.

Lemma scheduled_after_generation :
  scheduled graph ["flagship"; "seasonal_event"; "evergreen"] =
    [("flagship_reflection", fr); ("seasonal_content", sc); ("editing", ed)].
Proof. unfold scheduled. rewrite graph_nodes, graph_edges. reflexivity. Qed.

Lemma scheduled_after_refinement :
  scheduled graph ["flagship_reflection"; "seasonal_content"; "editing"] =
    [("editing", ed)].
Proof. unfold scheduled. rewrite graph_nodes, graph_edges. reflexivity. Qed.

Lemma scheduled_after_editing : scheduled graph ["editing"] = [].
Proof. unfold scheduled. rewrite graph_nodes, graph_edges. reflexivity. Qed.

Hypothesis f_writes : ∀ s u, f s = Ok u → ∃ v, u = {[ "flagship_messages" := v ]}.
Hypothesis se_writes : ∀ s u, se s = Ok u → ∃ v, u = {[ "seasonal_event_messages" := v ]}.
Hypothesis ev_writes : ∀ s u, ev s = Ok u → ∃ v, u = {[ "evergreen_messages" := v ]}.
Hypothesis fr_writes :
  ∀ s u, fr s = Ok u → ∃ v, u = {[ "flagship_reflection_messages" := v ]}.
Hypothesis sc_writes :
  ∀ s u, sc s = Ok u → ∃ v, u = {[ "seasonal_content_messages" := v ]}.
Hypothesis ed_writes : ∀ s u, ed s = Ok u → ∃ v, u = {[ "editing_messages" := v ]}.

(** A run that ends well went through three supersteps: the three
    generation tasks on the input; the two refinement tasks and the
    editing task on the state the first superstep left; the editing task
    again on the state the second left. *)
Lemma six_task_run (s0 final : gmap string value) (steps : list superstep) :
  pregel_loop graph recursion_limit s0 (scheduled graph [START]) = (Ok final, steps) →
  ∃ v1 v2 v3 v4 v5 v6 v7 s1 s2,
    s1 = <["evergreen_messages" := v3]>
           (<["seasonal_event_messages" := v2]>
              (<["flagship_messages" := v1]> s0)) ∧
    s2 = <["editing_messages" := v6]>
           (<["seasonal_content_messages" := v5]>
              (<["flagship_reflection_messages" := v4]> s1)) ∧
    final = <["editing_messages" := v7]> s2 ∧
    f s0 = Ok {[ "flagship_messages" := v1 ]} ∧
    se s0 = Ok {[ "seasonal_event_messages" := v2 ]} ∧
    ev s0 = Ok {[ "evergreen_messages" := v3 ]} ∧
    fr s1 = Ok {[ "flagship_reflection_messages" := v4 ]} ∧
    sc s1 = Ok {[ "seasonal_content_messages" := v5 ]} ∧
    ed s1 = Ok {[ "editing_messages" := v6 ]} ∧
    ed s2 = Ok {[ "editing_messages" := v7 ]} ∧
    steps =
      [ {| snapshot := s0;
           results := [("flagship", f s0); ("seasonal_event", se s0);
                       ("evergreen", ev s0)] |};
        {| snapshot := s1;
           results := [("flagship_reflection", fr s1); ("seasonal_content", sc s1);
                       ("editing", ed s1)] |};
        {| snapshot := s2; results := [("editing", ed s2)] |} ].
Proof.
  unfold recursion_limit. rewrite scheduled_at_start, pregel_loop_step.
  cbv zeta. cbn [results map fst snd sequence]. rewrite graph_channels.
  intros Hrun.
  destruct (f s0) as [u1|e] eqn:Hf; [|discriminate].
  destruct (se s0) as [u2|e] eqn:Hse; [|discriminate].
  destruct (ev s0) as [u3|e] eqn:Hev; [|discriminate].
  destruct (f_writes _ _ Hf) as (v1 & ->).
  destruct (se_writes _ _ Hse) as (v2 & ->).
  destruct (ev_writes _ _ Hev) as (v3 & ->).
  cbn [mbind res_bind] in Hrun.
  rewrite !apply_writes_singleton in Hrun
    by by_computing.
  cbn [apply_writes] in Hrun.
  rewrite scheduled_after_generation, pregel_loop_step in Hrun.
  cbv zeta in Hrun. cbn [results map fst snd sequence] in Hrun.
  rewrite graph_channels in Hrun.
  set (s1 := <["evergreen_messages" := v3]> _) in Hrun.
  destruct (fr s1) as [u4|e] eqn:Hfr; [|discriminate].
  destruct (sc s1) as [u5|e] eqn:Hsc; [|discriminate].
  destruct (ed s1) as [u6|e] eqn:Hed; [|discriminate].
  destruct (fr_writes _ _ Hfr) as (v4 & ->).
  destruct (sc_writes _ _ Hsc) as (v5 & ->).
  destruct (ed_writes _ _ Hed) as (v6 & ->).
  cbn [mbind res_bind] in Hrun.
  rewrite !apply_writes_singleton in Hrun
    by by_computing.
  cbn [apply_writes] in Hrun.
  rewrite scheduled_after_refinement, pregel_loop_step in Hrun.
  cbv zeta in Hrun. cbn [results map fst snd sequence] in Hrun.
  rewrite graph_channels in Hrun.
  set (s2 := <["editing_messages" := v6]> _) in Hrun.
  destruct (ed s2) as [u7|e] eqn:Hed2; [|discriminate].
  destruct (ed_writes _ _ Hed2) as (v7 & ->).
  cbn [mbind res_bind] in Hrun.
  rewrite !apply_writes_singleton in Hrun
    by by_computing.
  cbn [apply_writes] in Hrun.
  rewrite scheduled_after_editing, pregel_loop_done in Hrun.
  injection Hrun as <- <-.
  exists v1, v2, v3, v4, v5, v6, v7, s1, s2.
  rewrite ?Hf, ?Hse, ?Hev, ?Hfr, ?Hsc, ?Hed, ?Hed2. repeat split; reflexivity.
Qed.

End SixTasks.

(** ** The run of [create_graph] *)

Lemma create_initial_state_Ok (input_data : gmap string string)
    (init : gmap string value) :
  create_initial_state input_data = Ok init →
  ∃ cv ta pe mo,
    init =
      <["flagship_messages" := VList []]>
      (<["flagship_reflection_messages" := VList []]>
      (<["seasonal_event_messages" := VList []]>
      (<["seasonal_content_messages" := VList []]>
      (<["evergreen_messages" := VList []]>
      (<["editing_messages" := VList []]>
      (<["core_value_provided" := VStr cv]>
      (<["target_audience" := VStr ta]>
      (<["persona" := VStr pe]>
      (<["monetization" := VStr mo]> ∅))))))))).
Proof.
  unfold create_initial_state. intros Hinit.
  apply bind_Ok in Hinit as (cv & _ & Hinit).
  apply bind_Ok in Hinit as (ta & _ & Hinit).
  apply bind_Ok in Hinit as (pe & _ & Hinit).
  apply bind_Ok in Hinit as (mo & _ & Hinit).
  injection Hinit as <-. by exists cv, ta, pe, mo.
Qed.

Section Run.
Context `{Prompts}.
Variable model : ChatModel.

Lemma flagship_Ok s u :
  flagship model s = Ok u →
  ∃ response, u = {[ "flagship_messages" := VList [assistant response] ]}.
Proof.
  unfold flagship. intros Hu.
  apply bind_Ok in Hu as (prompt & _ & Hu).
  apply bind_Ok in Hu as (response & _ & [= <-]). by exists response.
Qed.

Lemma seasonal_event_Ok s u :
  seasonal_event model s = Ok u →
  ∃ response, u = {[ "seasonal_event_messages" := VList [assistant response] ]}.
Proof.
  unfold seasonal_event. intros Hu.
  apply bind_Ok in Hu as (prompt & _ & Hu).
  apply bind_Ok in Hu as (response & _ & [= <-]). by exists response.
Qed.

Lemma evergreen_Ok s u :
  evergreen model s = Ok u →
  ∃ response, u = {[ "evergreen_messages" := VList [assistant response] ]}.
Proof.
  unfold evergreen. intros Hu.
  apply bind_Ok in Hu as (prompt & _ & Hu).
  apply bind_Ok in Hu as (response & _ & [= <-]). by exists response.
Qed.

Lemma flagship_reflection_Ok s u :
  flagship_reflection model s = Ok u →
  ∃ response, u = {[ "flagship_reflection_messages" := VList [assistant response] ]}.
Proof.
  unfold flagship_reflection. intros Hu.
  apply bind_Ok in Hu as (prompt & _ & Hu).
  apply bind_Ok in Hu as (response & _ & [= <-]). by exists response.
Qed.

Lemma seasonal_content_Ok s u :
  seasonal_content model s = Ok u →
  ∃ response, u = {[ "seasonal_content_messages" := VList [assistant response] ]}.
Proof.
  unfold seasonal_content. intros Hu.
  apply bind_Ok in Hu as (prompt & _ & Hu).
  apply bind_Ok in Hu as (response & _ & [= <-]). by exists response.
Qed.

Lemma editing_Ok s u :
  editing model s = Ok u →
  ∃ response, u = {[ "editing_messages" := VList [assistant response] ]}.
Proof.
  unfold editing. intros Hu.
  apply bind_Ok in Hu as (prompt & _ & Hu).
  apply bind_Ok in Hu as (response & _ & [= <-]). by exists response.
Qed.

(** The run of the compiled graph, when it ends well. *)
Lemma create_graph_run (init final : gmap string value) (steps : list superstep) :
  invoke_graph (create_graph model) init = (Ok final, steps) →
  ∃ r1 r2 r3 r4 r5 r6 r7 s0 s1 s2,
    s0 = known ContentState init ∧
    s1 = <["evergreen_messages" := VList [assistant r3]]>
           (<["seasonal_event_messages" := VList [assistant r2]]>
              (<["flagship_messages" := VList [assistant r1]]> s0)) ∧
    s2 = <["editing_messages" := VList [assistant r6]]>
           (<["seasonal_content_messages" := VList [assistant r5]]>
              (<["flagship_reflection_messages" := VList [assistant r4]]> s1)) ∧
    final = <["editing_messages" := VList [assistant r7]]> s2 ∧
    flagship model s0 = Ok {[ "flagship_messages" := VList [assistant r1] ]} ∧
    seasonal_event model s0 = Ok {[ "seasonal_event_messages" := VList [assistant r2] ]} ∧
    evergreen model s0 = Ok {[ "evergreen_messages" := VList [assistant r3] ]} ∧
    flagship_reflection model s1 =
      Ok {[ "flagship_reflection_messages" := VList [assistant r4] ]} ∧
    seasonal_content model s1 =
      Ok {[ "seasonal_content_messages" := VList [assistant r5] ]} ∧
    editing model s1 = Ok {[ "editing_messages" := VList [assistant r6] ]} ∧
    editing model s2 = Ok {[ "editing_messages" := VList [assistant r7] ]} ∧
    steps =
      [ {| snapshot := s0;
           results := [("flagship", flagship model s0);
                       ("seasonal_event", seasonal_event model s0);
                       ("evergreen", evergreen model s0)] |};
        {| snapshot := s1;
           results := [("flagship_reflection", flagship_reflection model s1);
                       ("seasonal_content", seasonal_content model s1);
                       ("editing", editing model s1)] |};
        {| snapshot := s2; results := [("editing", editing model s2)] |} ].
Proof.
  intros Hrun. apply invoke_graph_Ok in Hrun.
  change (channels (create_graph model)) with ContentState in Hrun.
  eapply (six_task_run (create_graph model)) in Hrun; try reflexivity.
  - destruct Hrun as (v1 & v2 & v3 & v4 & v5 & v6 & v7 & s1 & s2 & Hs1 & Hs2 &
                      Hfinal & Hf & Hse & Hev & Hfr & Hsc & Hed & Hed2 & Hsteps).
    destruct (flagship_Ok _ _ Hf) as (r1 & Hv1).
    destruct (seasonal_event_Ok _ _ Hse) as (r2 & Hv2).
    destruct (evergreen_Ok _ _ Hev) as (r3 & Hv3).
    destruct (flagship_reflection_Ok _ _ Hfr) as (r4 & Hv4).
    destruct (seasonal_content_Ok _ _ Hsc) as (r5 & Hv5).
    destruct (editing_Ok _ _ Hed) as (r6 & Hv6).
    destruct (editing_Ok _ _ Hed2) as (r7 & Hv7).
    apply (inj (singletonM _)) in Hv1, Hv2, Hv3, Hv4, Hv5, Hv6, Hv7.
    subst v1 v2 v3 v4 v5 v6 v7.
    by exists r1, r2, r3, r4, r5, r6, r7, (known ContentState init), s1, s2.
  - intros s u Hu. destruct (flagship_Ok _ _ Hu) as (r & ->). eauto.
  - intros s u Hu. destruct (seasonal_event_Ok _ _ Hu) as (r & ->). eauto.
  - intros s u Hu. destruct (evergreen_Ok _ _ Hu) as (r & ->). eauto.
  - intros s u Hu. destruct (flagship_reflection_Ok _ _ Hu) as (r & ->). eauto.
  - intros s u Hu. destruct (seasonal_content_Ok _ _ Hu) as (r & ->). eauto.
  - intros s u Hu. destruct (editing_Ok _ _ Hu) as (r & ->). eauto.
Qed.

End Run.

Section FinalState.
Context `{Prompts}.
Variable model : ChatModel.

(** C3. When the run from an initial state ends well, the final state
    holds the ten keys of [ContentState]; apart from the four positioning
    fields these are exactly the six output keys of the task table, and
    each of the six holds one assistant message, which is the update its
    task returned in a superstep of the run. *)
Theorem final_state_has_the_six_entries
    (input_data : gmap string string) (init final : gmap string value)
    (steps : list superstep) :
  create_initial_state input_data = Ok init →
  invoke_graph (create_graph model) init = (Ok final, steps) →
  dom final ∖ list_to_set positioning_keys = list_to_set output_keys ∧
  size (dom final ∖ list_to_set positioning_keys : gset string) = 6 ∧
  Forall (λ row,
    ∃ response step,
      final !! row.2 = Some (VList [assistant response]) ∧
      step ∈ steps ∧
      (row.1.1, Ok {[ row.2 := VList [assistant response] ]}) ∈ results step)
    task_table.
Proof.
  intros Hinit Hrun.
  apply create_initial_state_Ok in Hinit as (cv & ta & pe & mo & ->).
  apply create_graph_run in Hrun
    as (r1 & r2 & r3 & r4 & r5 & r6 & r7 & s0 & s1 & s2 & Hs0 & Hs1 & Hs2 &
        Hfinal & Hf & Hse & Hev & Hfr & Hsc & Hed & Hed2 & Hsteps).
  assert (Hdom : dom final ∖ list_to_set positioning_keys
                 = (list_to_set output_keys : gset string)).
  { subst final s2 s1 s0. by_computing. }
  split; [exact Hdom|]. split; [rewrite Hdom; by_computing|].
  rewrite Hsteps, Hf, Hse, Hev, Hfr, Hsc, Hed, Hed2.
  unfold task_table. repeat (apply Forall_cons; split); [..|by apply Forall_nil];
    cbn [fst snd].
  - exists r1. eexists. split; [|split; [apply list_elem_of_here|]].
    + subst final s2 s1. by lookup_inserts.
    + apply list_elem_of_here.
  - exists r2. eexists. split; [|split; [apply list_elem_of_here|]].
    + subst final s2 s1. by lookup_inserts.
    + apply list_elem_of_further, list_elem_of_here.
  - exists r3. eexists. split; [|split; [apply list_elem_of_here|]].
    + subst final s2 s1. by lookup_inserts.
    + do 2 apply list_elem_of_further. apply list_elem_of_here.
  - exists r4. eexists.
    split; [|split; [apply list_elem_of_further, list_elem_of_here|]].
    + subst final s2. by lookup_inserts.
    + apply list_elem_of_here.
  - exists r5. eexists.
    split; [|split; [apply list_elem_of_further, list_elem_of_here|]].
    + subst final s2. by lookup_inserts.
    + apply list_elem_of_further, list_elem_of_here.
  - exists r7. eexists.
    split; [|split; [do 2 apply list_elem_of_further; apply list_elem_of_here|]].
    + subst final. apply lookup_insert_eq.
    + apply list_elem_of_here.
Qed.

End FinalState.

Lemma sample_run_ends_well :
  raises (invoke_graph (create_graph (H := sample_prompts) echo) sample_state).1 = false.
Proof. vm_compute. reflexivity. Qed.

Lemma final_state_has_the_six_entries_witness :
  ∃ final steps,
    invoke_graph (create_graph (H := sample_prompts) echo) sample_state
      = (Ok final, steps) ∧
    dom final ∖ list_to_set positioning_keys = list_to_set output_keys.
Proof.
  pose proof sample_run_ends_well as Hwell.
  destruct (invoke_graph (create_graph (H := sample_prompts) echo) sample_state)
    as [[final|e] steps] eqn:Hrun; [|discriminate].
  exists final, steps. split; [reflexivity|].
  destruct (final_state_has_the_six_entries (H := sample_prompts) echo
              sample_input sample_state final steps) as (Hdom & _).
  - by_computing.
  - exact Hrun.
  - exact Hdom.
Defined.

(** ** The positioning fields *)

Lemma known_lookup (schema : list string) (d : gmap string value) (key : string) :
  key ∈ schema → known schema d !! key = d !! key.
Proof.
  intros Hkey. unfold known. destruct (d !! key) as [v|] eqn:Hd.
  - by apply map_lookup_filter_Some.
  - apply map_lookup_filter_None. by left.
Qed.

Section Positioning.
Context `{Prompts}.
Variable model : ChatModel.

Lemma node_update_singleton (node : string * task) (s update : gmap string value) :
  node ∈ nodes (create_graph model) → node.2 s = Ok update →
  ∃ key v, key ∈ output_keys ∧ update = {[ key := v ]}.
Proof.
  intros Hnode Hupdate. cbn in Hnode.
  repeat (apply elem_of_cons in Hnode as [->|Hnode]);
    [..|by apply elem_of_nil in Hnode]; cbn [snd] in Hupdate.
  - destruct (flagship_Ok _ _ _ Hupdate) as (r & ->).
    eexists _, _. split; [|reflexivity]. by_computing.
  - destruct (flagship_reflection_Ok _ _ _ Hupdate) as (r & ->).
    eexists _, _. split; [|reflexivity]. by_computing.
  - destruct (seasonal_event_Ok _ _ _ Hupdate) as (r & ->).
    eexists _, _. split; [|reflexivity]. by_computing.
  - destruct (seasonal_content_Ok _ _ _ Hupdate) as (r & ->).
    eexists _, _. split; [|reflexivity]. by_computing.
  - destruct (evergreen_Ok _ _ _ Hupdate) as (r & ->).
    eexists _, _. split; [|reflexivity]. by_computing.
  - destruct (editing_Ok _ _ _ Hupdate) as (r & ->).
    eexists _, _. split; [|reflexivity]. by_computing.
Qed.

(** C7. No update returned by a task of the graph has one of the four
    positioning keys, and in the final state of a run each positioning key
    holds what it held in the initial state. *)
Theorem positioning_fields_are_immutable (key : string) :
  key ∈ positioning_keys →
  (∀ node s update,
     node ∈ nodes (create_graph model) → node.2 s = Ok update →
     update !! key = None) ∧
  (∀ init final steps,
     invoke_graph (create_graph model) init = (Ok final, steps) →
     final !! key = init !! key).
Proof.
  intros Hkey.
  assert (Hnodes : ∀ node s update,
            node ∈ nodes (create_graph model) → node.2 s = Ok update →
            update !! key = None).
  { intros node s update Hnode Hupdate.
    destruct (node_update_singleton node s update Hnode Hupdate)
      as (k & v & Hk & ->).
    apply lookup_singleton_ne. intros ->.
    unfold positioning_keys in Hkey. unfold output_keys in Hk.
    repeat (apply elem_of_cons in Hkey as [->|Hkey]);
      [..|by apply elem_of_nil in Hkey];
      revert Hk; by_computing. }
  split; [exact Hnodes|].
  intros init final steps Hrun. apply invoke_graph_Ok in Hrun.
  rewrite (pregel_loop_frame _ key _ _ _ _ _ Hnodes (scheduled_subseteq _ _) Hrun).
  apply known_lookup.
  unfold positioning_keys in Hkey.
  repeat (apply elem_of_cons in Hkey as [->|Hkey]);
    [..|by apply elem_of_nil in Hkey]; by_computing.
Qed.

End Positioning.

Lemma positioning_fields_are_immutable_witness :
  "persona" ∈ positioning_keys ∧
  (invoke_graph (create_graph (H := sample_prompts) echo) sample_state).1
    ≫= (λ final, Ok (final !! "persona")) = Ok (Some (VStr "guide")).
Proof.
  split; [by_computing|].
  pose proof sample_run_ends_well as Hwell.
  destruct (invoke_graph (create_graph (H := sample_prompts) echo) sample_state)
    as [[final|e] steps] eqn:Hrun; [|discriminate].
  destruct (positioning_fields_are_immutable (H := sample_prompts) echo "persona")
    as (_ & Hframe); [by_computing|].
  cbn. by rewrite (Hframe _ _ _ Hrun).
Defined.

(** ** Failure of a task *)

(** Every superstep of a run records tasks of the graph, each on the
    snapshot of the superstep. *)
Lemma pregel_loop_steps (graph : StateGraph) (fuel : nat)
    (state : gmap string value) (todo : list (string * task))
    (outcome : res (gmap string value)) (steps : list superstep) :
  todo ⊆ nodes graph →
  pregel_loop graph fuel state todo = (outcome, steps) →
  ∀ step, step ∈ steps →
    ∃ ran, ran ⊆ nodes graph ∧
      results step = map (λ node, (node.1, node.2 (snapshot step))) ran.
Proof.
  revert state todo outcome steps.
  induction fuel as [|fuel IH]; intros state todo outcome steps Htodo Hrun step Hstep.
  - destruct todo; simpl in Hrun; injection Hrun as _ <-;
      by apply elem_of_nil in Hstep.
  - destruct todo as [|node todo].
    + rewrite pregel_loop_done in Hrun. injection Hrun as _ <-.
      by apply elem_of_nil in Hstep.
    + rewrite pregel_loop_step in Hrun. cbv zeta in Hrun.
      assert (Hfirst : ∀ step',
                step' = {| snapshot := state;
                           results := map (λ node, (node.1, node.2 state)) (node :: todo) |} →
                ∃ ran, ran ⊆ nodes graph ∧
                  results step' = map (λ node, (node.1, node.2 (snapshot step'))) ran).
      { intros step' ->. by exists (node :: todo). }
      destruct (sequence _) as [updates|e].
      2:{ injection Hrun as _ <-. apply list_elem_of_singleton in Hstep. by apply Hfirst. }
      destruct (apply_writes _ _ _ _) as [state'|e].
      2:{ injection Hrun as _ <-. apply list_elem_of_singleton in Hstep. by apply Hfirst. }
      destruct (pregel_loop graph fuel state' _) as [outcome' steps'] eqn:Hrest.
      injection Hrun as _ <-.
      apply elem_of_cons in Hstep as [->|Hstep]; [by apply Hfirst|].
      eapply IH; [|exact Hrest|exact Hstep]. apply scheduled_subseteq.
Qed.

Section Failure.
Context `{Prompts}.
Variable ChatGroq : string → res ChatModel.

(** The prompt builder of each node. *)
Lemma node_calls_model (model : ChatModel) (node : string * task) :
  node ∈ nodes (create_graph model) →
  ∃ build key, prompt_of node.1 = Some build ∧
    ∀ s, node.2 s =
      (prompt ← build s; response ← invoke model prompt;
       Ok {[ key := VList [assistant response] ]}).
Proof.
  intros Hnode. cbn in Hnode.
  repeat (apply elem_of_cons in Hnode as [->|Hnode]);
    [..|by apply elem_of_nil in Hnode]; eexists _, _; split; reflexivity.
Qed.

(** C5. If, in a superstep of the run that [generate_suggestions] starts,
    the model raises on the prompt of one of the tasks of that superstep,
    then [generate_suggestions] returns [None]: no message list, whole or
    partial, reaches the caller, and what it shows ends with the error. *)
Theorem failed_model_call_gives_no_result
    (api_key : string) (input_data : gmap string string) (model : ChatModel)
    (step : superstep) (name prompt : string) (build : gmap string value → res string)
    (e : exn) :
  ChatGroq api_key = Ok model →
  step ∈ supersteps (generate_suggestions ChatGroq api_key input_data) →
  name ∈ map fst (results step) →
  prompt_of name = Some build →
  build (snapshot step) = Ok prompt →
  invoke model prompt = Raise e →
  suggestions (generate_suggestions ChatGroq api_key input_data) = None ∧
  ∃ e', shown (generate_suggestions ChatGroq api_key input_data) =
          [st_error_exn "An error occurred while generating suggestions: " e'].
Proof.
  intros Hmodel Hstep Hname Hbuild Hprompt Hraise.
  unfold generate_suggestions in *. rewrite Hmodel in *.
  destruct (create_initial_state input_data) as [init|e0];
    [|by apply elem_of_nil in Hstep].
  destruct (invoke_graph (create_graph model) init) as [[final|e1] steps] eqn:Hrun.
  2:{ split; [reflexivity|]. by exists e1. }
  exfalso.
  assert (Hsteps : step ∈ steps).
  { destruct (collect_messages final); exact Hstep. }
  clear Hstep. apply invoke_graph_Ok in Hrun.
  destruct (pregel_loop_steps _ _ _ _ _ _ (scheduled_subseteq _ _) Hrun step Hsteps)
    as (ran & Hran & Hresults).
  rewrite Hresults, <- list_fmap_compose in Hname.
  apply list_elem_of_fmap in Hname as (node & -> & Hnode).
  destruct (node_calls_model model node (Hran _ Hnode))
    as (build' & key & Hbuild' & Htask).
  assert (Hsame : Some build' = Some build).
  { rewrite <- Hbuild', <- Hbuild. reflexivity. }
  injection Hsame as ->.
  assert (Hfails : raises (node.2 (snapshot step)) = true).
  { rewrite Htask, Hprompt. cbn. by rewrite Hraise. }
  assert (Hnone : raises (node.2 (snapshot step)) = false).
  { apply (pregel_loop_Ok_no_raise _ _ _ _ _ _ Hrun step Hsteps
             (node.1, node.2 (snapshot step))).
    rewrite Hresults. apply list_elem_of_fmap. by exists node. }
  congruence.
Qed.

End Failure.

Lemma failed_model_call_gives_no_result_witness :
  suggestions (generate_suggestions (H := sample_prompts)
                 (λ _, Ok (failing_on "report on")) "key" sample_input) = None.
Proof.
  pose (step := default no_step
          (supersteps (generate_suggestions (H := sample_prompts)
                         (λ _, Ok (failing_on "report on")) "key" sample_input) !! 1)).
  refine (proj1 (failed_model_call_gives_no_result (H := sample_prompts)
           (λ _, Ok (failing_on "report on")) "key" sample_input
           (failing_on "report on") step "editing"
           "report on  and  and <evergreen topics for tools / owners / guide / subscriptions> for tools / owners / guide / subscriptions"
           editing_prompt (ModelError "rate limit") _ _ _ _ _ _)).
  - reflexivity.
  - by_computing.
  - by_computing.
  - reflexivity.
  - by_computing.
  - reflexivity.
Defined.

(** ** The collected messages *)

Lemma add_section_list_typed (header key : string) (final_state : gmap string value)
    (all_messages : list Message) :
  list_typed final_state key →
  add_section header key final_state all_messages =
    Ok (all_messages ++ section_of header (messages_at final_state key)).
Proof.
  unfold list_typed, add_section, messages_at, section_of. intros Hty.
  destruct (final_state !! key) as [[s|[|m l]]|].
  - by destruct (Hty s).
  - by rewrite app_nil_r.
  - by rewrite <- app_assoc.
  - by rewrite app_nil_r.
Qed.

Section Collected.
Context `{Prompts}.
Variable ChatGroq : string → res ChatModel.

(** C9. For a final state whose output keys are typed as declared, the
    collected messages are the six sections in the fixed order flagship,
    flagship analysis, seasonal events, seasonal content, evergreen,
    summary, a section being its header followed by the task's messages
    when there are any, and nothing, not even the header, when the list is
    empty or missing.  This is the list [generate_suggestions] returns
    when the run ends well. *)
Theorem collected_messages_are_the_sections_in_order :
  (∀ final_state,
     (∀ key, key ∈ output_keys → list_typed final_state key) →
     collect_messages final_state = Ok (sections final_state)) ∧
  (∀ api_key input_data model init final steps,
     ChatGroq api_key = Ok model →
     create_initial_state input_data = Ok init →
     invoke_graph (create_graph model) init = (Ok final, steps) →
     suggestions (generate_suggestions ChatGroq api_key input_data)
       = Some (sections final)).
Proof.
  assert (Hcollect : ∀ final_state,
            (∀ key, key ∈ output_keys → list_typed final_state key) →
            collect_messages final_state = Ok (sections final_state)).
  { intros final_state Hty. unfold collect_messages, sections.
    rewrite !add_section_list_typed by (apply Hty; by_computing).
    cbn [mbind res_bind]. rewrite !add_section_list_typed by (apply Hty; by_computing).
    cbn [mbind res_bind]. rewrite !add_section_list_typed by (apply Hty; by_computing).
    cbn [mbind res_bind]. rewrite !add_section_list_typed by (apply Hty; by_computing).
    cbn [mbind res_bind]. rewrite !add_section_list_typed by (apply Hty; by_computing).
    cbn [mbind res_bind]. rewrite !add_section_list_typed by (apply Hty; by_computing).
    cbn [mbind res_bind]. by rewrite app_nil_l, <- !app_assoc. }
  split; [exact Hcollect|].
  intros api_key input_data model init final steps Hmodel Hinit Hrun.
  unfold generate_suggestions. rewrite Hmodel, Hinit, Hrun.
  rewrite Hcollect; [reflexivity|].
  apply create_initial_state_Ok in Hinit as (cv & ta & pe & mo & ->).
  apply create_graph_run in Hrun
    as (r1 & r2 & r3 & r4 & r5 & r6 & r7 & s0 & s1 & s2 & _ & -> & -> &
        -> & _).
  intros key Hkey s. unfold output_keys in Hkey.
  repeat (apply elem_of_cons in Hkey as [->|Hkey]);
    [..|by apply elem_of_nil in Hkey]; by lookup_inserts.
Qed.

End Collected.

Lemma collected_messages_are_the_sections_in_order_witness :
  collect_messages (mock_state "tools") =
    Ok [assistant "## Flagship Content Ideas"; assistant "flagship:A";
        assistant "## Top Flagship Content Analysis"; assistant "flagship_reflection:D";
        assistant "## Seasonal Events"; assistant "seasonal_event:B";
        assistant "## Seasonal Content Ideas"; assistant "seasonal_content:E";
        assistant "## Evergreen Content Ideas"; assistant "evergreen:C"].
Proof.
  destruct (collected_messages_are_the_sections_in_order (H := sample_prompts)
              (λ _, Ok echo)) as (Hcollect & _).
  rewrite Hcollect; [by_computing|].
  intros key Hkey s. unfold output_keys in Hkey.
  repeat (apply elem_of_cons in Hkey as [->|Hkey]);
    [..|by apply elem_of_nil in Hkey]; by_computing.
Defined.

(** ** The form *)

Lemma truthy_empty (s : string) : truthy s = false ↔ s = "".
Proof. destruct s; simpl; split; congruence. Qed.

Section Form.
Context `{Prompts}.
Variable ChatGroq : string → res ChatModel.

(** C6. When the form is submitted with one of its four fields empty,
    [create_input_form] shows the error and returns no input record, and
    [main] starts no run: no superstep happens, nothing is displayed, and,
    once the API key is given, the error is all the page shows. *)
Theorem empty_field_is_rejected (api_key : string) (form : positioning_form) :
  submit_button form = true →
  core_value form = "" ∨ target_audience form = "" ∨
    persona form = "" ∨ monetization form = "" →
  create_input_form form =
    (None, [st_error "Please fill in all fields before generating suggestions."]) ∧
  run (main ChatGroq api_key form) = [] ∧
  displayed (main ChatGroq api_key form) = None ∧
  (api_key ≠ "" →
   events (main ChatGroq api_key form) =
     [st_error "Please fill in all fields before generating suggestions."]).
Proof.
  intros Hsubmit Hempty.
  assert (Hform : create_input_form form =
            (None, [st_error "Please fill in all fields before generating suggestions."])).
  { unfold create_input_form. rewrite Hsubmit.
    assert (Hall : forallb truthy [core_value form; target_audience form;
                                   persona form; monetization form] = false).
    { cbn [forallb].
      destruct Hempty as [-> | [-> | [-> | ->]]]; cbn [truthy];
        rewrite ?andb_false_r; reflexivity. }
    by rewrite Hall. }
  split; [exact Hform|].
  unfold main, get_api_key. rewrite Hform.
  destruct api_key as [|c api_key]; cbn; repeat split; try reflexivity.
  intros Hne. by destruct Hne.
Qed.

End Form.

Lemma empty_field_is_rejected_witness :
  events (main (H := sample_prompts) (λ _, Ok echo) "key"
            {| core_value := "tools"; target_audience := "";
               persona := "guide"; monetization := "subscriptions";
               submit_button := true |}) =
    [st_error "Please fill in all fields before generating suggestions."].
Proof.
  refine (proj2 (proj2 (proj2 (empty_field_is_rejected (H := sample_prompts)
            (λ _, Ok echo) "key" _ _ _))) _).
  - reflexivity.
  - right. left. reflexivity.
  - discriminate.
Defined.

(** ** The order of the tasks *)

Lemma never_early_runs_after (steps : list superstep) (node upstream : string) :
  never_early [] (map (λ step, map fst (results step)) steps) node upstream = true
  ↔ runs_after steps node upstream.
Proof.
  unfold runs_after, returned_before.
  assert (Hgen : ∀ earlier,
    never_early earlier (map (λ step, map fst (results step)) steps) node upstream = true
    ↔ ∀ i step, steps !! i = Some step → node ∈ map fst (results step) →
        upstream ∈ earlier ++ concat (map (λ step, map fst (results step)) (take i steps))).
  { induction steps as [|step0 steps IH]; intros earlier; simpl.
    - split; [intros _ i step Hi; by rewrite lookup_nil in Hi | done].
    - rewrite andb_true_iff, IH. split.
      + intros [Hhere Hrest] [|i] step Hi Hnode; simpl in *.
        * injection Hi as <-. rewrite bool_decide_eq_true_2 in Hhere by done.
          apply bool_decide_eq_true in Hhere. by rewrite app_nil_r.
        * specialize (Hrest i step Hi Hnode). by rewrite <- app_assoc in Hrest.
      + intros Hall. split.
        * case_bool_decide as Hnode; [|done]. apply bool_decide_eq_true.
          specialize (Hall 0 step0 eq_refl Hnode). simpl in Hall.
          by rewrite app_nil_r in Hall.
        * intros i step Hi Hnode. specialize (Hall (S i) step Hi Hnode).
          simpl in Hall. by rewrite <- app_assoc. }
  rewrite Hgen. reflexivity.
Qed.

(** C2, on the sample input.  The run goes through three supersteps; the
    editing task is one of the tasks of the second, together with
    [flagship_reflection] and [seasonal_content], and reads a state in which
    their two keys still hold the empty list of the initial state.  The two
    refinement tasks do run after their upstream tasks, and the editing task
    after [evergreen]. *)
Lemma editing_runs_before_its_upstream_tasks :
  let steps := (invoke_graph (create_graph (H := sample_prompts) echo) sample_state).2 in
  map (λ step, map fst (results step)) steps =
    [["flagship"; "seasonal_event"; "evergreen"];
     ["flagship_reflection"; "seasonal_content"; "editing"];
     ["editing"]] ∧
  runs_after steps "flagship_reflection" "flagship" ∧
  runs_after steps "seasonal_content" "seasonal_event" ∧
  runs_after steps "editing" "evergreen" ∧
  ¬ runs_after steps "editing" "flagship_reflection" ∧
  ¬ runs_after steps "editing" "seasonal_content" ∧
  snapshot (default no_step (steps !! 1)) !! "flagship_reflection_messages"
    = Some (VList []) ∧
  snapshot (default no_step (steps !! 1)) !! "seasonal_content_messages"
    = Some (VList []) ∧
  editing_prompt (H := sample_prompts) (snapshot (default no_step (steps !! 1))) =
    Ok "report on  and  and <evergreen topics for tools / owners / guide / subscriptions> for tools / owners / guide / subscriptions".
Proof.
  cbv zeta. rewrite <- !never_early_runs_after.
  repeat split; by_computing.
Qed.

Lemma schedule_cons (graph : StateGraph) (fuel : nat) (name : string)
    (names : list string) :
  schedule graph (S fuel) (name :: names) =
    (name :: names)
    :: schedule graph fuel (map fst (scheduled graph (name :: names))).
Proof. reflexivity. Qed.

Lemma task_names (state : gmap string value) (todo : list (string * task)) :
  map fst (map (λ n : string * task, (n.1, n.2 state)) todo) = map fst todo.
Proof. induction todo as [|n todo IH]; simpl; [reflexivity | by rewrite IH]. Qed.

(** The supersteps of a run are the first supersteps of the schedule; the
    run stops short of it only when a task raises. *)
Lemma pregel_loop_schedule (graph : StateGraph) (fuel : nat)
    (state : gmap string value) (todo : list (string * task))
    (outcome : res (gmap string value)) (steps : list superstep) :
  pregel_loop graph fuel state todo = (outcome, steps) →
  ∃ n, map (λ step, map fst (results step)) steps
       = take n (schedule graph fuel (map fst todo)).
Proof.
  revert state todo outcome steps.
  induction fuel as [|fuel IH]; intros state todo outcome steps Hrun.
  - exists 0. destruct todo; simpl in Hrun; by injection Hrun as _ <-.
  - destruct todo as [|node todo].
    + exists 0. rewrite pregel_loop_done in Hrun. by injection Hrun as _ <-.
    + rewrite pregel_loop_step in Hrun. cbv zeta in Hrun.
      destruct (sequence _) as [updates|e].
      2:{ exists 1. injection Hrun as _ <-.
          cbn [map results fst]. by rewrite task_names, schedule_cons. }
      destruct (apply_writes _ _ _ _) as [state'|e].
      2:{ exists 1. injection Hrun as _ <-.
          cbn [map results fst]. by rewrite task_names, schedule_cons. }
      destruct (pregel_loop graph fuel state' _) as [outcome' steps'] eqn:Hrest.
      injection Hrun as _ <-.
      destruct (IH _ _ _ _ Hrest) as (n & Hn). exists (S n).
      cbn [map fst] in Hn. cbn [map results fst].
      by rewrite task_names, schedule_cons, Hn.
Qed.

Section Order.
Context `{Prompts}.
Variable model : ChatModel.

Lemma create_graph_schedule :
  schedule (create_graph model) recursion_limit
    (map fst (scheduled (create_graph model) [START])) =
    [["flagship"; "seasonal_event"; "evergreen"];
     ["flagship_reflection"; "seasonal_content"; "editing"];
     ["editing"]].
Proof. by_computing. Qed.

(** In every run of the graph, whatever the model answers and wherever
    the run stops, the two refinement tasks run after their upstream task
    and the editing task after [evergreen]; but a run that reaches its
    second superstep has the editing task in it, when neither
    [flagship_reflection] nor [seasonal_content] has returned. *)
Lemma order_of_every_run (init : gmap string value)
    (outcome : res (gmap string value)) (steps : list superstep) :
  invoke_graph (create_graph model) init = (outcome, steps) →
  runs_after steps "flagship_reflection" "flagship" ∧
  runs_after steps "seasonal_content" "seasonal_event" ∧
  runs_after steps "editing" "evergreen" ∧
  (2 ≤ length steps →
   ¬ runs_after steps "editing" "flagship_reflection" ∧
   ¬ runs_after steps "editing" "seasonal_content").
Proof.
  intros Hrun.
  assert (Hsched : ∃ n, map (λ step, map fst (results step)) steps
            = take n (schedule (create_graph model) recursion_limit
                        (map fst (scheduled (create_graph model) [START])))).
  { apply invoke_graph_run in Hrun as [(_ & _ & ->) | (_ & Hrun)].
    - by exists 0.
    - by apply pregel_loop_schedule in Hrun. }
  destruct Hsched as (n & Hn).
  rewrite create_graph_schedule in Hn.
  assert (Hlen : length steps = length (map (λ step, map fst (results step)) steps))
    by (by rewrite length_map).
  rewrite <- !never_early_runs_after, Hlen, Hn. clear Hlen Hn.
  destruct n as [|[|[|n]]]; cbn [take]; rewrite ?take_nil; cbn [length];
    (split; [by_computing | split; [by_computing | split; [by_computing|]]]);
    intros Hlong; first [lia | split; by_computing].
Qed.

End Order.

(** ** The three generation tasks in any order *)

Lemma known_singleton (schema : list string) (key : string) (v : value) :
  key ∈ schema → known schema {[ key := v ]} = {[ key := v ]}.
Proof. intros Hkey. unfold known. by rewrite map_filter_singleton_True. Qed.

Lemma run_in_order_cons (graph : StateGraph) (name : string) (rest : list string)
    (state : gmap string value) (i : nat) (node : string * task) :
  list_find (λ n, n.1 = name) (nodes graph) = Some (i, node) →
  run_in_order graph (name :: rest) state =
    (update ← node.2 state;
     run_in_order graph rest (known (channels graph) update ∪ state)).
Proof. intros Hfind. simpl. by rewrite Hfind. Qed.

Section Interleavings.
Context `{Prompts}.
Variable model : ChatModel.

Lemma find_flagship :
  list_find (λ n : string * task, n.1 = "flagship") (nodes (create_graph model))
    = Some (0, ("flagship", flagship model)).
Proof. reflexivity. Qed.

Lemma find_seasonal_event :
  list_find (λ n : string * task, n.1 = "seasonal_event") (nodes (create_graph model))
    = Some (2, ("seasonal_event", seasonal_event model)).
Proof. reflexivity. Qed.

Lemma find_evergreen :
  list_find (λ n : string * task, n.1 = "evergreen") (nodes (create_graph model))
    = Some (4, ("evergreen", evergreen model)).
Proof. reflexivity. Qed.

(** A generation task reads the four positioning keys only. *)
Lemma flagship_insert (key : string) (v : value) (s : gmap string value) :
  key ∉ positioning_keys → flagship model (<[key := v]> s) = flagship model s.
Proof.
  intros Hkey. unfold flagship, flagship_prompt, getitem.
  rewrite !lookup_insert_ne by (intros ->; apply Hkey; by_computing).
  reflexivity.
Qed.

Lemma seasonal_event_insert (key : string) (v : value) (s : gmap string value) :
  key ∉ positioning_keys →
  seasonal_event model (<[key := v]> s) = seasonal_event model s.
Proof.
  intros Hkey. unfold seasonal_event, seasonal_event_prompt, getitem.
  rewrite !lookup_insert_ne by (intros ->; apply Hkey; by_computing).
  reflexivity.
Qed.

Lemma evergreen_insert (key : string) (v : value) (s : gmap string value) :
  key ∉ positioning_keys → evergreen model (<[key := v]> s) = evergreen model s.
Proof.
  intros Hkey. unfold evergreen, evergreen_prompt, getitem.
  rewrite !lookup_insert_ne by (intros ->; apply Hkey; by_computing).
  reflexivity.
Qed.

End Interleavings.

Lemma same_outcome_refl (a : res (gmap string value)) : same_outcome a a.
Proof. by destruct a. Qed.

Lemma same_outcome_trans (a b c : res (gmap string value)) :
  same_outcome a b → same_outcome b c → same_outcome a c.
Proof. destruct a, b, c; simpl; try done. congruence. Qed.

Lemma merge3_swap_first (ka kb : string) (ra rb rc : res (gmap string value))
    (state : gmap string value) :
  ka ≠ kb →
  (∀ u, ra = Ok u → ∃ v, u = {[ ka := v ]}) →
  (∀ u, rb = Ok u → ∃ v, u = {[ kb := v ]}) →
  same_outcome (merge3 rb ra rc state) (merge3 ra rb rc state).
Proof.
  intros Hne Ha Hb. destruct ra as [ua|], rb as [ub|], rc as [uc|]; simpl; try done.
  destruct (Ha ua eq_refl) as (va & ->). destruct (Hb ub eq_refl) as (vb & ->).
  f_equal. rewrite <- !insert_union_singleton_l. by apply insert_insert_ne.
Qed.

Lemma merge3_swap_last (kb kc : string) (ra rb rc : res (gmap string value))
    (state : gmap string value) :
  kb ≠ kc →
  (∀ u, rb = Ok u → ∃ v, u = {[ kb := v ]}) →
  (∀ u, rc = Ok u → ∃ v, u = {[ kc := v ]}) →
  same_outcome (merge3 ra rc rb state) (merge3 ra rb rc state).
Proof.
  intros Hne Hb Hc. destruct ra as [ua|], rb as [ub|], rc as [uc|]; simpl; try done.
  destruct (Hb ub eq_refl) as (vb & ->). destruct (Hc uc eq_refl) as (vc & ->).
  rewrite <- !insert_union_singleton_l. by apply insert_insert_ne.
Qed.

Section ThreeTasks.
Variable graph : StateGraph.
Variable keys : list string.
Variables na nb nc ka kb kc : string.
Variables ta tb tc : task.

Hypothesis task_a : independent_task graph keys na ka ta.
Hypothesis task_b : independent_task graph keys nb kb tb.
Hypothesis task_c : independent_task graph keys nc kc tc.
Hypothesis key_a : ka ∈ keys.
Hypothesis key_b : kb ∈ keys.

(** Run one after the other, the three tasks give what they give on the
    starting state, laid over it. *)
Lemma run_in_order_three (state : gmap string value) :
  run_in_order graph [na; nb; nc] state =
    merge3 (ta state) (tb state) (tc state) state.
Proof.
  destruct task_a as ((ia & Hfa) & Hka & Hwa & Hia).
  destruct task_b as ((ib & Hfb) & Hkb & Hwb & Hib).
  destruct task_c as ((ic & Hfc) & Hkc & Hwc & Hic).
  unfold merge3.
  rewrite (run_in_order_cons _ _ _ _ _ _ Hfa). cbn [snd].
  destruct (ta state) as [ua|e] eqn:Ha; [|reflexivity].
  destruct (Hwa _ _ Ha) as (va & ->). cbn [mbind res_bind].
  rewrite known_singleton by exact Hka.
  rewrite <- insert_union_singleton_l.
  rewrite (run_in_order_cons _ _ _ _ _ _ Hfb). cbn [snd].
  rewrite (Hib _ _ _ key_a).
  destruct (tb state) as [ub|e] eqn:Hb; [|reflexivity].
  destruct (Hwb _ _ Hb) as (vb & ->). cbn [mbind res_bind].
  rewrite known_singleton by exact Hkb.
  rewrite <- (insert_union_singleton_l (<[ka:=va]> state)).
  rewrite (run_in_order_cons _ _ _ _ _ _ Hfc). cbn [snd].
  rewrite (Hic _ _ _ key_b), (Hic _ _ _ key_a).
  destruct (tc state) as [uc|e] eqn:Hc; [|reflexivity].
  destruct (Hwc _ _ Hc) as (vc & ->). cbn [mbind res_bind run_in_order].
  rewrite known_singleton by exact Hkc.
  by rewrite !insert_union_singleton_l.
Qed.

(** Run together in a superstep, they give the same. *)
Lemma run_together_three (state : gmap string value) :
  ka ≠ kb → ka ≠ kc → kb ≠ kc →
  run_together graph [ta; tb; tc] state =
    merge3 (ta state) (tb state) (tc state) state.
Proof.
  intros Hab Hac Hbc.
  destruct task_a as (_ & Hka & Hwa & _).
  destruct task_b as (_ & Hkb & Hwb & _).
  destruct task_c as (_ & Hkc & Hwc & _).
  unfold run_together, merge3. cbn [map sequence].
  destruct (ta state) as [ua|e] eqn:Ha; [|reflexivity].
  destruct (tb state) as [ub|e] eqn:Hb; [|reflexivity].
  destruct (tc state) as [uc|e] eqn:Hc; [|reflexivity].
  destruct (Hwa _ _ Ha) as (va & ->). destruct (Hwb _ _ Hb) as (vb & ->).
  destruct (Hwc _ _ Hc) as (vc & ->). cbn [mbind res_bind].
  rewrite !apply_writes_singleton
    by (first [ assumption
              | rewrite ?not_elem_of_union, ?not_elem_of_singleton;
                repeat split; first [apply not_elem_of_empty | congruence] ]).
  cbn [apply_writes]. by rewrite !insert_union_singleton_l.
Qed.

End ThreeTasks.

Section GenerationOrder.
Context `{Prompts}.
Variable model : ChatModel.

Lemma generation_key_not_positioning (k : string) :
  k ∈ generation_keys → k ∉ positioning_keys.
Proof.
  intros Hk. unfold generation_keys in Hk.
  repeat (apply elem_of_cons in Hk as [->|Hk]);
    [..|by apply elem_of_nil in Hk]; by_computing.
Qed.

Lemma flagship_independent :
  independent_task (create_graph model) generation_keys
    "flagship" "flagship_messages" (flagship model).
Proof.
  split; [exists 0; reflexivity|]. split; [by_computing|].
  split; [intros s u Hu; destruct (flagship_Ok _ _ _ Hu) as (r & ->); eauto|].
  intros k v s Hk. by apply flagship_insert, generation_key_not_positioning.
Qed.

Lemma seasonal_event_independent :
  independent_task (create_graph model) generation_keys
    "seasonal_event" "seasonal_event_messages" (seasonal_event model).
Proof.
  split; [exists 2; reflexivity|]. split; [by_computing|].
  split; [intros s u Hu; destruct (seasonal_event_Ok _ _ _ Hu) as (r & ->); eauto|].
  intros k v s Hk. by apply seasonal_event_insert, generation_key_not_positioning.
Qed.

Lemma evergreen_independent :
  independent_task (create_graph model) generation_keys
    "evergreen" "evergreen_messages" (evergreen model).
Proof.
  split; [exists 4; reflexivity|]. split; [by_computing|].
  split; [intros s u Hu; destruct (evergreen_Ok _ _ _ Hu) as (r & ->); eauto|].
  intros k v s Hk. by apply evergreen_insert, generation_key_not_positioning.
Qed.

(** C4. Run one after the other in any of the six orders, from the same
    state, the three generation tasks end alike: with the same state, or,
    when one of them raises, with an exception in every order.  Run
    together in one superstep they end the same way. *)
Theorem generation_tasks_commute (order : list string) (state : gmap string value) :
  order ≡ₚ ["flagship"; "seasonal_event"; "evergreen"] →
  same_outcome
    (run_in_order (create_graph model) order state)
    (run_in_order (create_graph model)
       ["flagship"; "seasonal_event"; "evergreen"] state) ∧
  same_outcome
    (run_together (create_graph model)
       [flagship model; seasonal_event model; evergreen model] state)
    (run_in_order (create_graph model)
       ["flagship"; "seasonal_event"; "evergreen"] state).
Proof.
  intros Hperm.
  pose proof flagship_independent as Hf.
  pose proof seasonal_event_independent as Hse.
  pose proof evergreen_independent as Hev.
  assert (Hwf : ∀ u, flagship model state = Ok u →
                  ∃ v, u = {[ "flagship_messages" := v ]})
    by (intros u Hu; destruct (flagship_Ok _ _ _ Hu) as (r & ->); eauto).
  assert (Hwse : ∀ u, seasonal_event model state = Ok u →
                   ∃ v, u = {[ "seasonal_event_messages" := v ]})
    by (intros u Hu; destruct (seasonal_event_Ok _ _ _ Hu) as (r & ->); eauto).
  assert (Hwev : ∀ u, evergreen model state = Ok u →
                   ∃ v, u = {[ "evergreen_messages" := v ]})
    by (intros u Hu; destruct (evergreen_Ok _ _ _ Hu) as (r & ->); eauto).
  assert (Hfse : "flagship_messages" ≠ "seasonal_event_messages") by by_computing.
  assert (Hfev : "flagship_messages" ≠ "evergreen_messages") by by_computing.
  assert (Hseev : "seasonal_event_messages" ≠ "evergreen_messages") by by_computing.
  assert (Hkf : "flagship_messages" ∈ generation_keys) by by_computing.
  assert (Hkse : "seasonal_event_messages" ∈ generation_keys) by by_computing.
  assert (Hkev : "evergreen_messages" ∈ generation_keys) by by_computing.
  split.
  - symmetry in Hperm. apply permutations_Permutation in Hperm.
    assert (Hall : permutations ["flagship"; "seasonal_event"; "evergreen"] =
              [["flagship"; "seasonal_event"; "evergreen"];
               ["seasonal_event"; "flagship"; "evergreen"];
               ["seasonal_event"; "evergreen"; "flagship"];
               ["flagship"; "evergreen"; "seasonal_event"];
               ["evergreen"; "flagship"; "seasonal_event"];
               ["evergreen"; "seasonal_event"; "flagship"]]) by by_computing.
    rewrite Hall in Hperm. clear Hall.
    rewrite (run_in_order_three _ _ _ _ _ _ _ _ _ _ _ Hf Hse Hev Hkf Hkse).
    repeat (apply elem_of_cons in Hperm as [->|Hperm]);
      [..|by apply elem_of_nil in Hperm].
    + rewrite (run_in_order_three _ _ _ _ _ _ _ _ _ _ _ Hf Hse Hev Hkf Hkse).
      apply same_outcome_refl.
    + rewrite (run_in_order_three _ _ _ _ _ _ _ _ _ _ _ Hse Hf Hev Hkse Hkf).
      apply (merge3_swap_first "flagship_messages" "seasonal_event_messages"); assumption.
    + rewrite (run_in_order_three _ _ _ _ _ _ _ _ _ _ _ Hse Hev Hf Hkse Hkev).
      eapply same_outcome_trans;
        [apply (merge3_swap_last "flagship_messages" "evergreen_messages"); assumption|].
      apply (merge3_swap_first "flagship_messages" "seasonal_event_messages"); assumption.
    + rewrite (run_in_order_three _ _ _ _ _ _ _ _ _ _ _ Hf Hev Hse Hkf Hkev).
      apply (merge3_swap_last "seasonal_event_messages" "evergreen_messages"); assumption.
    + rewrite (run_in_order_three _ _ _ _ _ _ _ _ _ _ _ Hev Hf Hse Hkev Hkf).
      eapply same_outcome_trans;
        [apply (merge3_swap_first "flagship_messages" "evergreen_messages"); assumption|].
      apply (merge3_swap_last "seasonal_event_messages" "evergreen_messages"); assumption.
    + rewrite (run_in_order_three _ _ _ _ _ _ _ _ _ _ _ Hev Hse Hf Hkev Hkse).
      eapply same_outcome_trans;
        [apply (merge3_swap_last "flagship_messages" "seasonal_event_messages"); assumption|].
      eapply same_outcome_trans;
        [apply (merge3_swap_first "flagship_messages" "evergreen_messages"); assumption|].
      apply (merge3_swap_last "seasonal_event_messages" "evergreen_messages"); assumption.
  - rewrite (run_in_order_three _ _ _ _ _ _ _ _ _ _ _ Hf Hse Hev Hkf Hkse).
    rewrite (run_together_three _ generation_keys "flagship" "seasonal_event"
               "evergreen" _ _ _ _ _ _ Hf Hse Hev) by assumption.
    apply same_outcome_refl.
Qed.

End GenerationOrder.

Lemma generation_tasks_commute_witness :
  ["evergreen"; "flagship"; "seasonal_event"]
    ≡ₚ ["flagship"; "seasonal_event"; "evergreen"] ∧
  same_outcome
    (run_in_order (create_graph (H := sample_prompts) echo)
       ["evergreen"; "flagship"; "seasonal_event"] sample_state)
    (run_in_order (create_graph (H := sample_prompts) echo)
       ["flagship"; "seasonal_event"; "evergreen"] sample_state) ∧
  raises (run_in_order (create_graph (H := sample_prompts) echo)
            ["evergreen"; "flagship"; "seasonal_event"] sample_state) = false.
Proof.
  assert (Hperm : ["evergreen"; "flagship"; "seasonal_event"]
                    ≡ₚ ["flagship"; "seasonal_event"; "evergreen"]).
  { symmetry. apply permutations_Permutation. by_computing. }
  split; [exact Hperm|]. split; [|by_computing].
  exact (proj1 (generation_tasks_commute (H := sample_prompts) echo _ sample_state Hperm)).
Defined.

(** * Further properties *)

(** ** From the form to the initial state *)

Lemma create_input_form_Some (form : positioning_form)
    (input_data : gmap string string) (seen : list ui_event) :
  create_input_form form = (Some input_data, seen) →
  submit_button form = true ∧
  forallb truthy [core_value form; target_audience form;
                  persona form; monetization form] = true ∧
  seen = [] ∧
  input_data = <["core_value" := core_value form]>
               (<["target_audience" := target_audience form]>
               (<["persona" := persona form]>
               (<["monetization" := monetization form]> ∅))).
Proof.
  unfold create_input_form. intros Hform.
  destruct (submit_button form); [|discriminate].
  destruct (forallb truthy _) eqn:Hall; simpl in Hform; [|discriminate].
  by injection Hform as <- <-.
Qed.

Lemma truthy_true (s : string) : truthy s = true ↔ s ≠ "".
Proof. destruct s; simpl; split; congruence. Qed.

Lemma create_initial_state_of_form (cv ta pe mo : string) :
  create_initial_state
    (<["core_value" := cv]>
     (<["target_audience" := ta]>
      (<["persona" := pe]> (<["monetization" := mo]> ∅))))
  = Ok (initial_state cv ta pe mo).
Proof.
  unfold create_initial_state, input_item. lookup_inserts. reflexivity.
Qed.

(** X1. The record a submitted form returns always makes an initial state:
    [create_initial_state] does not raise on it, the four fields of the form
    arrive under [core_value_provided], [target_audience], [persona] and
    [monetization], each under its own key, none of them empty, and the six
    message lists start empty. *)
Theorem form_record_gives_the_initial_state (form : positioning_form)
    (input_data : gmap string string) (seen : list ui_event) :
  create_input_form form = (Some input_data, seen) →
  seen = [] ∧
  core_value form ≠ "" ∧ target_audience form ≠ "" ∧
  persona form ≠ "" ∧ monetization form ≠ "" ∧
  create_initial_state input_data =
    Ok (initial_state (core_value form) (target_audience form)
          (persona form) (monetization form)).
Proof.
  intros Hform.
  apply create_input_form_Some in Hform as (_ & Hall & -> & ->).
  cbn [forallb] in Hall. rewrite !andb_true_iff, !truthy_true in Hall.
  destruct Hall as (Hcv & Hta & Hpe & Hmo & _).
  split; [reflexivity|]. repeat (split; [assumption|]).
  apply create_initial_state_of_form.
Qed.

Lemma form_record_gives_the_initial_state_witness :
  create_initial_state sample_input =
    Ok (initial_state "tools" "owners" "guide" "subscriptions").
Proof.
  destruct (form_record_gives_the_initial_state sample_form sample_input [])
    as (_ & _ & _ & _ & _ & Hinit).
  - reflexivity.
  - exact Hinit.
Defined.

(** X2. [create_initial_state] reads the four keys of its argument in the
    order core value, target audience, persona, monetization: it raises
    [KeyError] for the first one that is missing, and otherwise returns the
    initial state made of the four strings, whatever else the dict holds. *)
Theorem create_initial_state_needs_the_four_keys (input_data : gmap string string) :
  match first_missing input_data input_keys with
  | Some key => create_initial_state input_data = Raise (KeyError key)
  | None =>
      ∃ cv ta pe mo,
        input_data !! "core_value" = Some cv ∧
        input_data !! "target_audience" = Some ta ∧
        input_data !! "persona" = Some pe ∧
        input_data !! "monetization" = Some mo ∧
        create_initial_state input_data = Ok (initial_state cv ta pe mo)
  end.
Proof.
  unfold first_missing, input_keys, create_initial_state, input_item.
  cbn [list_find].
  destruct (input_data !! "core_value") as [cv|]; [|reflexivity].
  destruct (input_data !! "target_audience") as [ta|]; [|reflexivity].
  destruct (input_data !! "persona") as [pe|]; [|reflexivity].
  destruct (input_data !! "monetization") as [mo|]; [|reflexivity].
  cbn. by exists cv, ta, pe, mo.
Qed.

(** ** When [main] starts a run *)

Section MainRuns.
Context `{Prompts}.
Variable ChatGroq : string → res ChatModel.

(** X3. [main] starts a run, or displays anything, only when the API key
    is not empty, the form has been submitted and none of its four fields is
    empty; in every other case no superstep happens and no tab is shown. *)
Theorem main_runs_only_on_a_complete_submission
    (api_key : string) (form : positioning_form) :
  run (main ChatGroq api_key form) ≠ [] ∨
    displayed (main ChatGroq api_key form) ≠ None →
  api_key ≠ "" ∧ submit_button form = true ∧
  core_value form ≠ "" ∧ target_audience form ≠ "" ∧
  persona form ≠ "" ∧ monetization form ≠ "".
Proof.
  unfold main, get_api_key. intros Hran.
  destruct api_key as [|c api_key]; [by destruct Hran|].
  split; [discriminate|].
  destruct (create_input_form form) as [[input_data|] seen] eqn:Hform;
    [|by destruct Hran].
  apply create_input_form_Some in Hform as (Hsubmit & Hall & _ & _).
  cbn [forallb] in Hall. rewrite !andb_true_iff, !truthy_true in Hall.
  destruct Hall as (Hcv & Hta & Hpe & Hmo & _). by repeat split.
Qed.

End MainRuns.

Lemma main_runs_only_on_a_complete_submission_witness :
  run (main (H := sample_prompts) (λ _, Ok echo) "key" sample_form) ≠ [] ∧
  "key" ≠ "" ∧ submit_button sample_form = true.
Proof.
  assert (Hrun : run (main (H := sample_prompts) (λ _, Ok echo) "key" sample_form) ≠ [])
    by by_computing.
  split; [exact Hrun|].
  destruct (main_runs_only_on_a_complete_submission (H := sample_prompts)
              (λ _, Ok echo) "key" sample_form (or_introl Hrun))
    as (Hkey & Hsubmit & _).
  by split.
Defined.

(** ** What stops a task before the model is called *)

Section MissingField.
Context `{Prompts}.
Variable model : ChatModel.

(** X4. When the state lacks a positioning field, every one of the six
    tasks raises [KeyError] for the first missing one, in the order core
    value, target audience, persona, monetization, whatever the model and the
    templates are: no prompt is built and the model is not called. *)
Theorem missing_positioning_field_raises (state : gmap string value) (key : string) :
  first_missing state positioning_keys = Some key →
  (∀ k, k ∈ output_keys → list_typed state k) →
  flagship model state = Raise (KeyError key) ∧
  seasonal_event model state = Raise (KeyError key) ∧
  evergreen model state = Raise (KeyError key) ∧
  flagship_reflection model state = Raise (KeyError key) ∧
  seasonal_content model state = Raise (KeyError key) ∧
  editing model state = Raise (KeyError key).
Proof.
  intros Hmiss Hty.
  assert (Hjoin : ∀ k, k ∈ output_keys →
            joined state k = Ok (concatenated (messages_at state k))).
  { intros k Hk. apply joined_list_typed, Hty, Hk. }
  unfold flagship, seasonal_event, evergreen, flagship_reflection,
    seasonal_content, editing, flagship_prompt, seasonal_event_prompt,
    evergreen_prompt, flagship_reflection_prompt, seasonal_content_prompt,
    editing_prompt, getitem.
  rewrite !Hjoin by by_computing.
  unfold first_missing, positioning_keys in Hmiss. cbn [list_find] in Hmiss.
  destruct (state !! "core_value_provided") as [cv|];
    [|cbn in Hmiss; injection Hmiss as <-; by repeat split].
  destruct (state !! "target_audience") as [ta|];
    [|cbn in Hmiss; injection Hmiss as <-; by repeat split].
  destruct (state !! "persona") as [pe|];
    [|cbn in Hmiss; injection Hmiss as <-; by repeat split].
  destruct (state !! "monetization") as [mo|];
    [|cbn in Hmiss; injection Hmiss as <-; by repeat split].
  discriminate.
Qed.

End MissingField.

Lemma missing_positioning_field_raises_witness :
  editing (H := sample_prompts) echo (delete "persona" sample_state)
    = Raise (KeyError "persona").
Proof.
  destruct (missing_positioning_field_raises (H := sample_prompts) echo
              (delete "persona" sample_state) "persona")
    as (_ & _ & _ & _ & _ & Hediting).
  - by_computing.
  - intros k Hk s. unfold output_keys in Hk.
    repeat (apply elem_of_cons in Hk as [->|Hk]);
      [..|by apply elem_of_nil in Hk]; by_computing.
  - exact Hediting.
Defined.

(** ** Templates and the fields the tasks pass *)


Section TemplateFields.
Context `{Prompts}.


End TemplateFields.


(** ** How a run ends *)

Section SixTaskOutcome.
Variable graph : StateGraph.
Variables f fr se sc ev ed : task.

Hypothesis graph_channels : channels graph = ContentState.
Hypothesis graph_nodes :
  nodes graph =
    [("flagship", f); ("flagship_reflection", fr); ("seasonal_event", se);
     ("seasonal_content", sc); ("evergreen", ev); ("editing", ed)].
Hypothesis graph_edges :
  edges graph =
    [(START, "flagship"); (START, "seasonal_event"); (START, "evergreen");
     ("flagship", "flagship_reflection"); ("flagship_reflection", "editing");
     ("seasonal_event", "seasonal_content"); ("seasonal_content", "editing");
     ("evergreen", "editing"); ("editing", END)].
Hypothesis f_writes : ∀ s u, f s = Ok u → ∃ v, u = {[ "flagship_messages" := v ]}.
Hypothesis se_writes : ∀ s u, se s = Ok u → ∃ v, u = {[ "seasonal_event_messages" := v ]}.
Hypothesis ev_writes : ∀ s u, ev s = Ok u → ∃ v, u = {[ "evergreen_messages" := v ]}.
Hypothesis fr_writes :
  ∀ s u, fr s = Ok u → ∃ v, u = {[ "flagship_reflection_messages" := v ]}.
Hypothesis sc_writes :
  ∀ s u, sc s = Ok u → ∃ v, u = {[ "seasonal_content_messages" := v ]}.
Hypothesis ed_writes : ∀ s u, ed s = Ok u → ∃ v, u = {[ "editing_messages" := v ]}.



(** When the seven task runs succeed, so does the run. *)
Lemma six_task_run_succeeds (s0 : gmap string value) (v1 v2 v3 v4 v5 v6 v7 : value) :
  let s1 := <["evergreen_messages" := v3]>
              (<["seasonal_event_messages" := v2]>
                 (<["flagship_messages" := v1]> s0)) in
  let s2 := <["editing_messages" := v6]>
              (<["seasonal_content_messages" := v5]>
                 (<["flagship_reflection_messages" := v4]> s1)) in
  f s0 = Ok {[ "flagship_messages" := v1 ]} →
  se s0 = Ok {[ "seasonal_event_messages" := v2 ]} →
  ev s0 = Ok {[ "evergreen_messages" := v3 ]} →
  fr s1 = Ok {[ "flagship_reflection_messages" := v4 ]} →
  sc s1 = Ok {[ "seasonal_content_messages" := v5 ]} →
  ed s1 = Ok {[ "editing_messages" := v6 ]} →
  ed s2 = Ok {[ "editing_messages" := v7 ]} →
  (pregel_loop graph recursion_limit s0 (scheduled graph [START])).1
    = Ok (<["editing_messages" := v7]> s2).
Proof.
  intros s1 s2 Hf Hse Hev Hfr Hsc Hed Hed2.
  unfold recursion_limit.
  rewrite (scheduled_at_start graph f fr se sc ev ed graph_nodes graph_edges),
    pregel_loop_step.
  cbv zeta. cbn [results map fst snd sequence]. rewrite graph_channels.
  rewrite Hf, Hse, Hev. cbn [mbind res_bind].
  rewrite !apply_writes_singleton by by_computing. cbn [apply_writes].
  rewrite (scheduled_after_generation graph f fr se sc ev ed graph_nodes graph_edges),
    pregel_loop_step.
  cbv zeta. cbn [results map fst snd sequence]. rewrite graph_channels.
  fold s1. rewrite Hfr, Hsc, Hed. cbn [mbind res_bind].
  rewrite !apply_writes_singleton by by_computing. cbn [apply_writes].
  rewrite (scheduled_after_refinement graph f fr se sc ev ed graph_nodes graph_edges),
    pregel_loop_step.
  cbv zeta. cbn [results map fst snd sequence]. rewrite graph_channels.
  fold s2. rewrite Hed2. cbn [mbind res_bind].
  rewrite !apply_writes_singleton by by_computing. cbn [apply_writes].
  rewrite (scheduled_after_editing graph f fr se sc ev ed graph_nodes graph_edges),
    pregel_loop_done.
  reflexivity.
Qed.

End SixTaskOutcome.

Lemma collect_messages_sections (final_state : gmap string value) :
  (∀ key, key ∈ output_keys → list_typed final_state key) →
  collect_messages final_state = Ok (sections final_state).
Proof.
  intros Hty. unfold collect_messages, sections.
  rewrite !add_section_list_typed by (apply Hty; by_computing).
  cbn [mbind res_bind]. rewrite !add_section_list_typed by (apply Hty; by_computing).
  cbn [mbind res_bind]. rewrite !add_section_list_typed by (apply Hty; by_computing).
  cbn [mbind res_bind]. rewrite !add_section_list_typed by (apply Hty; by_computing).
  cbn [mbind res_bind]. rewrite !add_section_list_typed by (apply Hty; by_computing).
  cbn [mbind res_bind]. rewrite !add_section_list_typed by (apply Hty; by_computing).
  cbn [mbind res_bind]. by rewrite app_nil_l, <- !app_assoc.
Qed.








Section RunOutcome.
Context `{Prompts}.
Variable model : ChatModel.






End RunOutcome.


(** ** What a completed run leaves *)

Lemma Ok_inj {A : Type} (a b : A) : Ok a = Ok b → a = b.
Proof. by intros [= ->]. Qed.

Lemma singleton_reply (key : string) (r r' : string) :
  ({[ key := VList [assistant r] ]} : gmap string value)
    = {[ key := VList [assistant r'] ]} → r = r'.
Proof. intros Heq. apply (inj (singletonM _)) in Heq. by injection Heq. Qed.

Section Completed.
Context `{Prompts}.
Variable model : ChatModel.

(** A task that returned a reply built its prompt and got the reply from
    the model. *)
Lemma call_returned (build : gmap string value → res string) (key : string)
    (s : gmap string value) (r : string) :
  (prompt ← build s; response ← invoke model prompt;
   Ok {[ key := VList [assistant response] ]})
    = Ok ({[ key := VList [assistant r] ]} : gmap string value) →
  ∃ prompt, build s = Ok prompt ∧ invoke model prompt = Ok r.
Proof.
  intros Hcall. apply bind_Ok in Hcall as (prompt & Hprompt & Hcall).
  apply bind_Ok in Hcall as (response & Hresponse & Hcall).
  apply Ok_inj, singleton_reply in Hcall as ->. eauto.
Qed.

(** X8. The final state of a completed run is consistent with itself: for
    each of the six tasks, the prompt the task builds from the final state
    is a prompt the model answered, and the answer is the one message under
    the task's key.  In particular the summary kept is the answer to the
    editing prompt made of the reflection, the seasonal content and the
    evergreen text of this same final state, not the answer of the editing
    task's earlier run. *)
Theorem final_state_is_consistent (init final : gmap string value)
    (steps : list superstep) :
  invoke_graph (create_graph model) init = (Ok final, steps) →
  Forall (λ row,
    ∃ build prompt response,
      prompt_of row.1.1 = Some build ∧
      build final = Ok prompt ∧
      invoke model prompt = Ok response ∧
      final !! row.2 = Some (VList [assistant response]))
    task_table.
Proof.
  intros Hrun.
  apply create_graph_run in Hrun
    as (r1 & r2 & r3 & r4 & r5 & r6 & r7 & s0 & s1 & s2 & _ & Hs1 & Hs2 &
        Hfinal & Hf & Hse & Hev & Hfr & Hsc & _ & Hed & _).
  apply call_returned in Hf as (p1 & Hp1 & Hi1).
  apply call_returned in Hse as (p2 & Hp2 & Hi2).
  apply call_returned in Hev as (p3 & Hp3 & Hi3).
  apply call_returned in Hfr as (p4 & Hp4 & Hi4).
  apply call_returned in Hsc as (p5 & Hp5 & Hi5).
  apply call_returned in Hed as (p7 & Hp7 & Hi7).
  unfold task_table. repeat (apply Forall_cons; split); [..|by apply Forall_nil];
    cbn [fst snd].
  - exists flagship_prompt, p1, r1. repeat split; [|exact Hi1|].
    + rewrite <- Hp1. subst final s2 s1.
      unfold flagship_prompt, getitem. by lookup_inserts.
    + subst final s2 s1. by lookup_inserts.
  - exists seasonal_event_prompt, p2, r2. repeat split; [|exact Hi2|].
    + rewrite <- Hp2. subst final s2 s1.
      unfold seasonal_event_prompt, getitem. by lookup_inserts.
    + subst final s2 s1. by lookup_inserts.
  - exists evergreen_prompt, p3, r3. repeat split; [|exact Hi3|].
    + rewrite <- Hp3. subst final s2 s1.
      unfold evergreen_prompt, getitem. by lookup_inserts.
    + subst final s2 s1. by lookup_inserts.
  - exists flagship_reflection_prompt, p4, r4. repeat split; [|exact Hi4|].
    + rewrite <- Hp4. subst final s2.
      unfold flagship_reflection_prompt, joined, get_default, getitem.
      by lookup_inserts.
    + subst final s2. by lookup_inserts.
  - exists seasonal_content_prompt, p5, r5. repeat split; [|exact Hi5|].
    + rewrite <- Hp5. subst final s2.
      unfold seasonal_content_prompt, joined, get_default, getitem.
      by lookup_inserts.
    + subst final s2. by lookup_inserts.
  - exists editing_prompt, p7, r7. repeat split; [|exact Hi7|].
    + rewrite <- Hp7. subst final.
      unfold editing_prompt, joined, get_default, getitem. by lookup_inserts.
    + subst final. by lookup_inserts.
Qed.

End Completed.
Section Returned.
Context `{Prompts}.
Variable ChatGroq : string → res ChatModel.

(** X7. Whenever [generate_suggestions] returns a list, the list has
    twelve messages: the six headers in their fixed order, each followed by
    exactly one reply (which may be empty: an empty completion still gets
    its header), and the page shows the success notice. *)
Theorem returned_suggestions_are_six_headed_replies
    (api_key : string) (input_data : gmap string string) (l : list Message) :
  suggestions (generate_suggestions ChatGroq api_key input_data) = Some l →
  shown (generate_suggestions ChatGroq api_key input_data)
    = [st_success "Suggestions generated successfully!"] ∧
  ∃ r1 r2 r3 r4 r5 r6,
    l = [assistant "## Flagship Content Ideas"; assistant r1;
         assistant "## Top Flagship Content Analysis"; assistant r2;
         assistant "## Seasonal Events"; assistant r3;
         assistant "## Seasonal Content Ideas"; assistant r4;
         assistant "## Evergreen Content Ideas"; assistant r5;
         assistant "## Content Strategy Summary"; assistant r6].
Proof.
  unfold generate_suggestions.
  destruct (ChatGroq api_key) as [model|e]; [|discriminate].
  destruct (create_initial_state input_data) as [init|e]; [|discriminate].
  destruct (invoke_graph (create_graph model) init) as [[final|e] steps] eqn:Hrun;
    [|discriminate].
  apply create_graph_run in Hrun
    as (r1 & r2 & r3 & r4 & r5 & r6 & r7 & s0 & s1 & s2 & _ & -> & -> & -> & _).
  rewrite collect_messages_sections.
  2:{ intros key Hkey s. unfold output_keys in Hkey.
      repeat (apply elem_of_cons in Hkey as [->|Hkey]);
        [..|by apply elem_of_nil in Hkey]; by lookup_inserts. }
  cbn [suggestions shown]. intros [= <-]. split; [reflexivity|].
  exists r1, r4, r2, r5, r3, r7.
  unfold sections, messages_at. by lookup_inserts.
Qed.

End Returned.


Lemma final_state_is_consistent_witness :
  ∃ final steps prompt response,
    invoke_graph (create_graph (H := sample_prompts) echo) sample_state
      = (Ok final, steps) ∧
    editing_prompt (H := sample_prompts) final = Ok prompt ∧
    invoke echo prompt = Ok response ∧
    final !! "editing_messages" = Some (VList [assistant response]).
Proof.
  pose proof sample_run_ends_well as Hwell.
  destruct (invoke_graph (create_graph (H := sample_prompts) echo) sample_state)
    as [[final|e] steps] eqn:Hrun; [|discriminate].
  pose proof (final_state_is_consistent (H := sample_prompts) echo _ _ _ Hrun) as Hall.
  unfold task_table in Hall.
  do 5 (apply Forall_cons in Hall as [_ Hall]).
  apply Forall_cons in Hall as [Hediting _].
  destruct Hediting as (build & prompt & response & Hbuild & Hprompt & Hreply & Hkey).
  assert (Hsame : Some build = Some (editing_prompt (H := sample_prompts))).
  { rewrite <- Hbuild. reflexivity. }
  apply (inj Some) in Hsame. subst build.
  exists final, steps, prompt, response.
  split; [reflexivity|]. split; [exact Hprompt|]. split; [exact Hreply | exact Hkey].
Defined.
Lemma returned_suggestions_are_six_headed_replies_witness :
  ∃ l, suggestions (generate_suggestions (H := sample_prompts) (λ _, Ok echo)
                      "key" sample_input) = Some l ∧
       length l = 12.
Proof.
  destruct (suggestions (generate_suggestions (H := sample_prompts) (λ _, Ok echo)
                           "key" sample_input)) as [l|] eqn:Hl.
  - exists l. split; [reflexivity|].
    destruct (returned_suggestions_are_six_headed_replies (H := sample_prompts)
                (λ _, Ok echo) "key" sample_input l Hl)
      as (_ & r1 & r2 & r3 & r4 & r5 & r6 & ->).
    reflexivity.
  - exfalso. revert Hl. by_computing.
Defined.

(** ** When everything answers *)

Lemma positioned_known_initial (cv ta pe mo : string) :
  positioned (known ContentState (initial_state cv ta pe mo)) cv ta pe mo.
Proof.
  unfold positioned. rewrite !known_lookup by by_computing.
  unfold initial_state. repeat split; by lookup_inserts.
Qed.

Lemma positioned_insert (state : gmap string value) (k : string) (v : value)
    (cv ta pe mo : string) :
  k ∉ positioning_keys → positioned state cv ta pe mo →
  positioned (<[k := v]> state) cv ta pe mo.
Proof.
  intros Hk (Hcv & Hta & Hpe & Hmo). unfold positioned.
  rewrite !lookup_insert_ne by (intros ->; apply Hk; by_computing). done.
Qed.

Lemma list_typed_insert (state : gmap string value) (k k' : string) (l : list Message) :
  list_typed state k' → list_typed (<[k := VList l]> state) k'.
Proof.
  intros Hty s. rewrite lookup_insert. case_decide; [discriminate | apply Hty].
Qed.

Lemma list_typed_known_initial (cv ta pe mo k : string) :
  k ∈ output_keys → list_typed (known ContentState (initial_state cv ta pe mo)) k.
Proof.
  intros Hk s. unfold output_keys in Hk.
  rewrite known_lookup by (unfold ContentState; set_unfold; tauto).
  unfold initial_state.
  repeat (apply elem_of_cons in Hk as [->|Hk]); [..|by apply elem_of_nil in Hk];
    lookup_inserts; discriminate.
Qed.

Section Answers.
Context `{Prompts}.
Variable model : ChatModel.
Hypothesis model_answers : answers model.

(** A task whose prompt is built returns the model's reply. *)
Lemma call_answers (prompt : res string) (key : string) :
  (∃ text, prompt = Ok text) →
  ∃ r, (text ← prompt; response ← invoke model text;
        Ok ({[ key := VList [assistant response] ]} : gmap string value))
       = Ok {[ key := VList [assistant r] ]}.
Proof.
  intros (text & ->). destruct (model_answers text) as (r & Hr).
  exists r. cbn. by rewrite Hr.
Qed.

Lemma generation_prompt_built (t : template) (state : gmap string value)
    (cv ta pe mo : string) :
  well_formed t positioning_keys → positioned state cv ta pe mo →
  ∃ text,
    (core_value_provided ← getitem state "core_value_provided";
     target_audience ← getitem state "target_audience";
     persona ← getitem state "persona";
     monetization ← getitem state "monetization";
     format t [("core_value_provided", core_value_provided);
               ("target_audience", target_audience);
               ("persona", persona);
               ("monetization", monetization)]) = Ok text.
Proof.
  intros Hwf (Hcv & Hta & Hpe & Hmo). unfold getitem.
  rewrite Hcv, Hta, Hpe, Hmo. cbn [mbind res_bind].
  apply format_total; [exact Hwf|].
  cbn [map snd]. repeat (constructor; [by eexists|]). constructor.
Qed.

Lemma flagship_answers (state : gmap string value) (cv ta pe mo : string) :
  well_formed FLAGSHIP_PROMPT positioning_keys → positioned state cv ta pe mo →
  ∃ r, flagship model state = Ok {[ "flagship_messages" := VList [assistant r] ]}.
Proof.
  intros Hwf Hpos. apply call_answers. by eapply generation_prompt_built.
Qed.

Lemma seasonal_event_answers (state : gmap string value) (cv ta pe mo : string) :
  well_formed SEASONAL_PROMPT positioning_keys → positioned state cv ta pe mo →
  ∃ r, seasonal_event model state
       = Ok {[ "seasonal_event_messages" := VList [assistant r] ]}.
Proof.
  intros Hwf Hpos. apply call_answers. by eapply generation_prompt_built.
Qed.

Lemma evergreen_answers (state : gmap string value) (cv ta pe mo : string) :
  well_formed EVERGREEN_PROMPT positioning_keys → positioned state cv ta pe mo →
  ∃ r, evergreen model state = Ok {[ "evergreen_messages" := VList [assistant r] ]}.
Proof.
  intros Hwf Hpos. apply call_answers. by eapply generation_prompt_built.
Qed.

Lemma flagship_reflection_answers (state : gmap string value) (cv ta pe mo : string) :
  well_formed FLAGSHIP_REFLECTION_PROMPT (positioning_keys ++ ["flagship_content"]) →
  positioned state cv ta pe mo → list_typed state "flagship_messages" →
  ∃ r, flagship_reflection model state
       = Ok {[ "flagship_reflection_messages" := VList [assistant r] ]}.
Proof.
  intros Hwf (Hcv & Hta & Hpe & Hmo) Hty. apply call_answers.
  unfold flagship_reflection_prompt, getitem.
  rewrite (joined_list_typed _ _ Hty), Hcv, Hta, Hpe, Hmo. cbn [mbind res_bind].
  apply format_total; [exact Hwf|].
  cbn [map snd]. repeat (constructor; [by eexists|]). constructor.
Qed.

Lemma seasonal_content_answers (state : gmap string value) (cv ta pe mo : string) :
  well_formed SEASONAL_CONTENT_PROMPT (positioning_keys ++ ["seasonal_events"]) →
  positioned state cv ta pe mo → list_typed state "seasonal_event_messages" →
  ∃ r, seasonal_content model state
       = Ok {[ "seasonal_content_messages" := VList [assistant r] ]}.
Proof.
  intros Hwf (Hcv & Hta & Hpe & Hmo) Hty. apply call_answers.
  unfold seasonal_content_prompt, getitem.
  rewrite (joined_list_typed _ _ Hty), Hcv, Hta, Hpe, Hmo. cbn [mbind res_bind].
  apply format_total; [exact Hwf|].
  cbn [map snd]. repeat (constructor; [by eexists|]). constructor.
Qed.

Lemma editing_answers (state : gmap string value) (cv ta pe mo : string) :
  well_formed Edit_PROMPT editing_names →
  positioned state cv ta pe mo →
  list_typed state "flagship_reflection_messages" →
  list_typed state "seasonal_content_messages" →
  list_typed state "evergreen_messages" →
  ∃ r, editing model state = Ok {[ "editing_messages" := VList [assistant r] ]}.
Proof.
  intros Hwf Hpos Hfr Hsc Hev. apply call_answers.
  rewrite (editing_prompt_format state cv ta pe mo _ _ _ Hpos
             (joined_list_typed _ _ Hfr) (joined_list_typed _ _ Hsc)
             (joined_list_typed _ _ Hev)).
  apply format_total; [exact Hwf|].
  cbn [map snd app positioning_kwargs].
  repeat (constructor; [by eexists|]). constructor.
Qed.

(** With a model that answers and templates that name passed fields only,
    the run from an initial state ends well. *)
Lemma run_ends_well (cv ta pe mo : string) :
  templates_well_formed →
  ∃ final, (invoke_graph (create_graph model) (initial_state cv ta pe mo)).1 = Ok final.
Proof.
  intros (Hwf1 & Hwf2 & Hwf3 & Hwf4 & Hwf5 & Hwf6).
  unfold invoke_graph.
  change (channels (create_graph model)) with ContentState.
  set (s0 := known ContentState (initial_state cv ta pe mo)).
  assert (Hpos0 : positioned s0 cv ta pe mo) by apply positioned_known_initial.
  assert (Hty0 : ∀ k, k ∈ output_keys → list_typed s0 k)
    by (intros k Hk; by apply list_typed_known_initial).
  clearbody s0.
  rewrite decide_False
    by (intros ->; destruct Hpos0 as (Hcv & _); by rewrite lookup_empty in Hcv).
  destruct (flagship_answers s0 cv ta pe mo Hwf1 Hpos0) as (r1 & Hf).
  destruct (seasonal_event_answers s0 cv ta pe mo Hwf2 Hpos0) as (r2 & Hse).
  destruct (evergreen_answers s0 cv ta pe mo Hwf3 Hpos0) as (r3 & Hev).
  set (s1 := <["evergreen_messages" := VList [assistant r3]]>
               (<["seasonal_event_messages" := VList [assistant r2]]>
                  (<["flagship_messages" := VList [assistant r1]]> s0))).
  assert (Hpos1 : positioned s1 cv ta pe mo).
  { unfold s1. do 3 (apply positioned_insert; [by_computing|]). exact Hpos0. }
  assert (Hty1 : ∀ k, k ∈ output_keys → list_typed s1 k).
  { intros k Hk. unfold s1. do 3 apply list_typed_insert. by apply Hty0. }
  destruct (flagship_reflection_answers s1 cv ta pe mo Hwf4 Hpos1) as (r4 & Hfr);
    [apply Hty1; by_computing|].
  destruct (seasonal_content_answers s1 cv ta pe mo Hwf5 Hpos1) as (r5 & Hsc);
    [apply Hty1; by_computing|].
  destruct (editing_answers s1 cv ta pe mo Hwf6 Hpos1) as (r6 & Hed);
    [apply Hty1; by_computing..|].
  set (s2 := <["editing_messages" := VList [assistant r6]]>
               (<["seasonal_content_messages" := VList [assistant r5]]>
                  (<["flagship_reflection_messages" := VList [assistant r4]]> s1))).
  assert (Hpos2 : positioned s2 cv ta pe mo).
  { unfold s2. do 3 (apply positioned_insert; [by_computing|]). exact Hpos1. }
  assert (Hty2 : ∀ k, k ∈ output_keys → list_typed s2 k).
  { intros k Hk. unfold s2. do 3 apply list_typed_insert. by apply Hty1. }
  destruct (editing_answers s2 cv ta pe mo Hwf6 Hpos2) as (r7 & Hed2);
    [apply Hty2; by_computing..|].
  exists (<["editing_messages" := VList [assistant r7]]> s2).
  apply (six_task_run_succeeds (create_graph model)
           (flagship model) (flagship_reflection model) (seasonal_event model)
           (seasonal_content model) (evergreen model) (editing model)
           eq_refl eq_refl eq_refl);
    [exact Hf|exact Hse|exact Hev|exact Hfr|exact Hsc|exact Hed|exact Hed2].
Qed.

End Answers.

Lemma create_input_form_valid (form : positioning_form) :
  submit_button form = true →
  core_value form ≠ "" → target_audience form ≠ "" →
  persona form ≠ "" → monetization form ≠ "" →
  create_input_form form =
    (Some (<["core_value" := core_value form]>
          (<["target_audience" := target_audience form]>
          (<["persona" := persona form]>
          (<["monetization" := monetization form]> ∅)))), []).
Proof.
  intros Hsubmit Hcv Hta Hpe Hmo. unfold create_input_form. rewrite Hsubmit.
  apply truthy_true in Hcv, Hta, Hpe, Hmo.
  cbn [forallb]. by rewrite Hcv, Hta, Hpe, Hmo.
Qed.

Section HappyPath.
Context `{Prompts}.
Variable ChatGroq : string → res ChatModel.

Lemma generate_suggestions_answers (api_key : string) (model : ChatModel)
    (cv ta pe mo : string) :
  ChatGroq api_key = Ok model → answers model → templates_well_formed →
  ∃ m l,
    suggestions (generate_suggestions ChatGroq api_key
                   (<["core_value" := cv]> (<["target_audience" := ta]>
                      (<["persona" := pe]> (<["monetization" := mo]> ∅)))))
      = Some (m :: l) ∧
    length (m :: l) = 12 ∧
    shown (generate_suggestions ChatGroq api_key
             (<["core_value" := cv]> (<["target_audience" := ta]>
                (<["persona" := pe]> (<["monetization" := mo]> ∅)))))
      = [st_success "Suggestions generated successfully!"] ∧
    length (supersteps (generate_suggestions ChatGroq api_key
                          (<["core_value" := cv]> (<["target_audience" := ta]>
                             (<["persona" := pe]> (<["monetization" := mo]> ∅))))))
      = 3.
Proof.
  intros Hmodel Hanswers Hwf. unfold generate_suggestions.
  rewrite Hmodel, create_initial_state_of_form.
  destruct (run_ends_well model Hanswers cv ta pe mo Hwf) as (final & Hfinal).
  destruct (invoke_graph (create_graph model) (initial_state cv ta pe mo))
    as [outcome steps] eqn:Hrun.
  cbn [fst] in Hfinal. subst outcome.
  apply create_graph_run in Hrun
    as (r1 & r2 & r3 & r4 & r5 & r6 & r7 & s0 & s1 & s2 & _ & -> & -> & -> &
        _ & _ & _ & _ & _ & _ & _ & ->).
  rewrite collect_messages_sections.
  2:{ intros key Hkey s. unfold output_keys in Hkey.
      repeat (apply elem_of_cons in Hkey as [->|Hkey]);
        [..|by apply elem_of_nil in Hkey]; by lookup_inserts. }
  cbn [suggestions shown supersteps].
  unfold sections, messages_at. lookup_inserts.
  eexists _, _. split; [reflexivity|]. split; [reflexivity|].
  split; reflexivity.
Qed.

(** X6. A complete submission is answered: with an API key, a submitted
    form whose four fields are filled in, a model that answers every prompt
    and templates that name none but the fields their tasks pass, [main]
    runs the graph through its three supersteps, shows the success notice
    and displays the twelve messages of the six sections. *)
Theorem complete_submission_is_answered
    (api_key : string) (form : positioning_form) (model : ChatModel) :
  api_key ≠ "" → submit_button form = true →
  core_value form ≠ "" → target_audience form ≠ "" →
  persona form ≠ "" → monetization form ≠ "" →
  ChatGroq api_key = Ok model → answers model → templates_well_formed →
  ∃ l, displayed (main ChatGroq api_key form) = Some l ∧
       length l = 12 ∧
       events (main ChatGroq api_key form)
         = [st_success "Suggestions generated successfully!"] ∧
       length (run (main ChatGroq api_key form)) = 3.
Proof.
  intros Hkey Hsubmit Hcv Hta Hpe Hmo Hmodel Hanswers Hwf.
  unfold main, get_api_key.
  destruct api_key as [|c api_key]; [done|].
  rewrite (create_input_form_valid form Hsubmit Hcv Hta Hpe Hmo).
  rewrite decide_False.
  2:{ intros Hempty. apply (f_equal (lookup "core_value")) in Hempty.
      by rewrite lookup_insert_eq, lookup_empty in Hempty. }
  destruct (generate_suggestions_answers (String c api_key) model
              (core_value form) (target_audience form) (persona form)
              (monetization form) Hmodel Hanswers Hwf)
    as (m & l & Hsuggestions & Hlength & Hshown & Hsteps).
  cbv zeta. cbn [events run displayed]. rewrite Hsuggestions, Hshown, Hsteps.
  exists (m :: l). split; [reflexivity|]. split; [exact Hlength|].
  split; reflexivity.
Qed.

End HappyPath.

Lemma echo_answers : answers echo.
Proof. intros prompt. by eexists. Qed.

Lemma sample_templates_well_formed : templates_well_formed (H := sample_prompts).
Proof. unfold templates_well_formed, well_formed. repeat split; by_computing. Qed.

Lemma complete_submission_is_answered_witness :
  ∃ l, displayed (main (H := sample_prompts) (λ _, Ok echo) "key" sample_form) = Some l ∧
       length l = 12.
Proof.
  destruct (complete_submission_is_answered (H := sample_prompts) (λ _, Ok echo)
              "key" sample_form echo) as (l & Hl & Hlen & _).
  - by_computing.
  - reflexivity.
  - by_computing.
  - by_computing.
  - by_computing.
  - by_computing.
  - reflexivity.
  - apply echo_answers.
  - apply sample_templates_well_formed.
  - exists l. split; [exact Hl | exact Hlen].
Defined.

(** ** The tabs *)

Lemma any_header_subseteq (headers headers' : list string) (text : string) :
  headers ⊆ headers' → any_header headers' text = false →
  any_header headers text = false.
Proof.
  unfold any_header. intros Hsub Hnone.
  apply not_true_is_false. intros Hsome.
  apply existsb_exists in Hsome as (h & Hh & Hocc).
  assert (Hfalse : existsb (λ header, occursb header text) headers' = true).
  { apply existsb_exists. exists h. split; [|exact Hocc].
    apply list_elem_of_In, Hsub, list_elem_of_In, Hh. }
  congruence.
Qed.

(** A run of unmarked messages is collected whole while collecting, and
    passed over otherwise. *)
Lemma extract_loop_unmarked (start_headers end_headers : list string)
    (block rest : list Message) (collecting : bool) (collected : list Message) :
  Forall (unmarked start_headers end_headers) block →
  extract_loop start_headers end_headers (block ++ rest) collecting collected =
    extract_loop start_headers end_headers rest collecting
      (if collecting then collected ++ block else collected).
Proof.
  intros Hblock. revert collected.
  induction Hblock as [|msg block (Hrole & Hstart & Hend) _ IH]; intros collected.
  - destruct collecting; by rewrite ?app_nil_r.
  - cbn [app extract_loop]. rewrite Hrole, Hstart, Hend. cbn [String.eqb].
    replace (String.eqb "assistant" "assistant") with true by by_computing.
    destruct collecting; rewrite IH; [|reflexivity].
    by rewrite <- app_assoc.
Qed.

Lemma extract_loop_section_start (start_headers end_headers : list string)
    (header : string) (messages rest : list Message) (collecting : bool)
    (collected : list Message) :
  any_header start_headers header = true →
  Forall (unmarked start_headers end_headers) messages →
  ∃ collecting',
    extract_loop start_headers end_headers (section_of header messages ++ rest)
      collecting collected =
    extract_loop start_headers end_headers rest collecting'
      (collected ++ section_of header messages).
Proof.
  intros Hstart Hblock. destruct messages as [|msg messages].
  - exists collecting. cbn [section_of app]. by rewrite app_nil_r.
  - exists true.
    change (section_of header (msg :: messages))
      with (assistant header :: (msg :: messages)).
    remember (msg :: messages) as block eqn:Hb.
    change ((assistant header :: block) ++ rest)
      with (assistant header :: (block ++ rest)).
    cbn [extract_loop assistant role content].
    replace (String.eqb "assistant" "assistant") with true by by_computing.
    rewrite Hstart, (extract_loop_unmarked _ _ _ _ _ _ Hblock).
    by rewrite <- app_assoc.
Qed.

Lemma extract_loop_section_end (start_headers end_headers : list string)
    (header : string) (messages rest : list Message) (collecting : bool)
    (collected : list Message) :
  any_header start_headers header = false →
  any_header end_headers header = true →
  Forall (unmarked start_headers end_headers) messages →
  ∃ collecting',
    extract_loop start_headers end_headers (section_of header messages ++ rest)
      collecting collected =
    extract_loop start_headers end_headers rest collecting' collected.
Proof.
  intros Hstart Hend Hblock. destruct messages as [|msg messages].
  - by exists collecting.
  - exists false.
    change (section_of header (msg :: messages))
      with (assistant header :: (msg :: messages)).
    remember (msg :: messages) as block eqn:Hb.
    change ((assistant header :: block) ++ rest)
      with (assistant header :: (block ++ rest)).
    cbn [extract_loop assistant role content].
    replace (String.eqb "assistant" "assistant") with true by by_computing.
    by rewrite Hstart, Hend, (extract_loop_unmarked _ _ _ _ _ _ Hblock).
Qed.

Lemma extract_loop_section_other (start_headers end_headers : list string)
    (header : string) (messages rest : list Message) (collected : list Message) :
  any_header start_headers header = false →
  any_header end_headers header = false →
  Forall (unmarked start_headers end_headers) messages →
  extract_loop start_headers end_headers (section_of header messages ++ rest)
    false collected =
  extract_loop start_headers end_headers rest false collected.
Proof.
  intros Hstart Hend Hblock. destruct messages as [|msg messages].
  - reflexivity.
  - change (section_of header (msg :: messages))
      with (assistant header :: (msg :: messages)).
    remember (msg :: messages) as block eqn:Hb.
    change ((assistant header :: block) ++ rest)
      with (assistant header :: (block ++ rest)).
    cbn [extract_loop assistant role content].
    replace (String.eqb "assistant" "assistant") with true by by_computing.
    by rewrite Hstart, Hend, (extract_loop_unmarked _ _ _ _ _ _ Hblock).
Qed.

Lemma plain_unmarked (start_headers end_headers : list string)
    (messages : list Message) :
  start_headers ⊆ tab_markers → end_headers ⊆ tab_markers →
  Forall plain messages → Forall (unmarked start_headers end_headers) messages.
Proof.
  intros Hstart Hend Hplain. eapply Forall_impl; [exact Hplain|].
  intros msg (Hrole & Hnone).
  split; [exact Hrole|]. split; by eapply any_header_subseteq.
Qed.

Lemma markers_subseteq (headers : list string) :
  Forall (λ h, h ∈ tab_markers) headers → headers ⊆ tab_markers.
Proof. intros Hall h Hh. rewrite Forall_forall in Hall. by apply Hall. Qed.

Ltac plain_block :=
  apply plain_unmarked;
  [apply markers_subseteq; by_computing | apply markers_subseteq; by_computing
  | assumption].

(** One section of the suggestions, under the extraction of a tab. *)
Ltac section_start :=
  match goal with
  | |- context [extract_loop ?s ?e (section_of ?h ?l ++ ?rest) ?c ?acc] =>
      let c' := fresh "collecting" in
      let Heq := fresh "Heq" in
      destruct (extract_loop_section_start s e h l rest c acc) as (c' & Heq);
      [by_computing | plain_block | rewrite Heq; clear Heq]
  end.

Ltac section_end :=
  match goal with
  | |- context [extract_loop ?s ?e (section_of ?h ?l ++ ?rest) ?c ?acc] =>
      let c' := fresh "collecting" in
      let Heq := fresh "Heq" in
      destruct (extract_loop_section_end s e h l rest c acc) as (c' & Heq);
      [by_computing | by_computing | plain_block
      | rewrite Heq; clear Heq]
  end.

Ltac section_other :=
  rewrite extract_loop_section_other;
  [ | by_computing | by_computing | plain_block ].

(** The suggestions under the extraction of each tab. *)
Lemma sections_under_the_tabs (final_state : gmap string value) :
  (∀ key, key ∈ output_keys → Forall plain (messages_at final_state key)) →
  flagship_tab (sections final_state) =
    section_of "## Flagship Content Ideas"
      (messages_at final_state "flagship_messages") ++
    section_of "## Top Flagship Content Analysis"
      (messages_at final_state "flagship_reflection_messages") ∧
  seasonal_tab (sections final_state) =
    section_of "## Seasonal Events"
      (messages_at final_state "seasonal_event_messages") ++
    section_of "## Seasonal Content Ideas"
      (messages_at final_state "seasonal_content_messages") ∧
  evergreen_tab (sections final_state) =
    section_of "## Evergreen Content Ideas"
      (messages_at final_state "evergreen_messages") ∧
  summary_tab (sections final_state) =
    section_of "## Content Strategy Summary"
      (messages_at final_state "editing_messages") ∧
  flagship_tab (sections final_state) ++ seasonal_tab (sections final_state) ++
    evergreen_tab (sections final_state) ++ summary_tab (sections final_state)
    = sections final_state.
Proof.
  intros Hplain.
  assert (H1 := Hplain "flagship_messages" ltac:(by_computing)).
  assert (H2 := Hplain "flagship_reflection_messages" ltac:(by_computing)).
  assert (H3 := Hplain "seasonal_event_messages" ltac:(by_computing)).
  assert (H4 := Hplain "seasonal_content_messages" ltac:(by_computing)).
  assert (H5 := Hplain "evergreen_messages" ltac:(by_computing)).
  assert (H6 := Hplain "editing_messages" ltac:(by_computing)).
  unfold sections.
  set (l1 := messages_at final_state "flagship_messages") in *.
  set (l2 := messages_at final_state "flagship_reflection_messages") in *.
  set (l3 := messages_at final_state "seasonal_event_messages") in *.
  set (l4 := messages_at final_state "seasonal_content_messages") in *.
  set (l5 := messages_at final_state "evergreen_messages") in *.
  set (l6 := messages_at final_state "editing_messages") in *.
  clearbody l1 l2 l3 l4 l5 l6.
  rewrite <- (app_nil_r (section_of "## Content Strategy Summary" l6)).
  assert (Hflagship :
    flagship_tab (section_of "## Flagship Content Ideas" l1 ++
                  section_of "## Top Flagship Content Analysis" l2 ++
                  section_of "## Seasonal Events" l3 ++
                  section_of "## Seasonal Content Ideas" l4 ++
                  section_of "## Evergreen Content Ideas" l5 ++
                  section_of "## Content Strategy Summary" l6 ++ []) =
    section_of "## Flagship Content Ideas" l1 ++
    section_of "## Top Flagship Content Analysis" l2).
  { unfold flagship_tab, extract_section_content.
    section_start. section_start. section_end. section_end. section_end.
    section_end. cbn [extract_loop]. by rewrite app_nil_l. }
  assert (Hseasonal :
    seasonal_tab (section_of "## Flagship Content Ideas" l1 ++
                  section_of "## Top Flagship Content Analysis" l2 ++
                  section_of "## Seasonal Events" l3 ++
                  section_of "## Seasonal Content Ideas" l4 ++
                  section_of "## Evergreen Content Ideas" l5 ++
                  section_of "## Content Strategy Summary" l6 ++ []) =
    section_of "## Seasonal Events" l3 ++
    section_of "## Seasonal Content Ideas" l4).
  { unfold seasonal_tab, extract_section_content.
    section_other. section_other. section_start. section_start. section_end.
    section_end. cbn [extract_loop]. by rewrite app_nil_l. }
  assert (Hevergreen :
    evergreen_tab (section_of "## Flagship Content Ideas" l1 ++
                   section_of "## Top Flagship Content Analysis" l2 ++
                   section_of "## Seasonal Events" l3 ++
                   section_of "## Seasonal Content Ideas" l4 ++
                   section_of "## Evergreen Content Ideas" l5 ++
                   section_of "## Content Strategy Summary" l6 ++ []) =
    section_of "## Evergreen Content Ideas" l5).
  { unfold evergreen_tab, extract_section_content.
    section_other. section_other. section_other. section_other. section_start.
    section_end. cbn [extract_loop]. by rewrite app_nil_l. }
  assert (Hsummary :
    summary_tab (section_of "## Flagship Content Ideas" l1 ++
                 section_of "## Top Flagship Content Analysis" l2 ++
                 section_of "## Seasonal Events" l3 ++
                 section_of "## Seasonal Content Ideas" l4 ++
                 section_of "## Evergreen Content Ideas" l5 ++
                 section_of "## Content Strategy Summary" l6 ++ []) =
    section_of "## Content Strategy Summary" l6).
  { unfold summary_tab, extract_section_content.
    section_other. section_other. section_other. section_other. section_other.
    section_start. cbn [extract_loop]. by rewrite app_nil_l. }
  rewrite Hflagship, Hseasonal, Hevergreen, Hsummary.
  repeat split; rewrite ?app_nil_r, <- ?app_assoc; reflexivity.
Qed.

(** X11. When the messages under the six output keys are assistant messages
    whose text names none of the markers the tabs scan for, the four
    category tabs split the collected suggestions: the flagship tab holds the
    flagship and flagship analysis sections, the seasonal tab the seasonal
    events and seasonal content sections, the evergreen tab the evergreen
    section and the summary tab the summary section, headers included; put
    one after the other they are the whole list, nothing lost or repeated. *)
Theorem tabs_split_the_sections (final_state : gmap string value) :
  (∀ key, key ∈ output_keys → Forall plain (messages_at final_state key)) →
  flagship_tab (sections final_state) =
    section_of "## Flagship Content Ideas"
      (messages_at final_state "flagship_messages") ++
    section_of "## Top Flagship Content Analysis"
      (messages_at final_state "flagship_reflection_messages") ∧
  seasonal_tab (sections final_state) =
    section_of "## Seasonal Events"
      (messages_at final_state "seasonal_event_messages") ++
    section_of "## Seasonal Content Ideas"
      (messages_at final_state "seasonal_content_messages") ∧
  evergreen_tab (sections final_state) =
    section_of "## Evergreen Content Ideas"
      (messages_at final_state "evergreen_messages") ∧
  summary_tab (sections final_state) =
    section_of "## Content Strategy Summary"
      (messages_at final_state "editing_messages") ∧
  flagship_tab (sections final_state) ++ seasonal_tab (sections final_state) ++
    evergreen_tab (sections final_state) ++ summary_tab (sections final_state)
    = sections final_state.
Proof. exact (sections_under_the_tabs final_state). Qed.

Lemma mock_outputs_plain (key : string) :
  key ∈ output_keys → Forall plain (messages_at (mock_state "tools") key).
Proof.
  intros Hkey. unfold output_keys in Hkey.
  repeat (apply elem_of_cons in Hkey as [->|Hkey]);
    [..|by apply elem_of_nil in Hkey];
    vm_compute messages_at; repeat constructor.
Qed.

Lemma tabs_split_the_sections_witness :
  flagship_tab (sections (mock_state "tools")) =
    [assistant "## Flagship Content Ideas"; assistant "flagship:A";
     assistant "## Top Flagship Content Analysis"; assistant "flagship_reflection:D"].
Proof.
  destruct (tabs_split_the_sections (mock_state "tools") mock_outputs_plain)
    as (Hflagship & _).
  rewrite Hflagship. by_computing.
Defined.

(** What [extract_loop] adds to the collected messages. *)
Lemma extract_loop_adds (start_headers end_headers : list string)
    (messages : list Message) (collecting : bool) (collected : list Message) :
  ∃ picked,
    extract_loop start_headers end_headers messages collecting collected
      = collected ++ picked ∧
    sublist picked messages ∧
    Forall (λ msg, role msg = "assistant" ∧
                   (any_header start_headers (content msg) = true ∨
                    any_header end_headers (content msg) = false)) picked ∧
    (collecting = false →
     Forall (λ msg, role msg = "assistant" →
                    any_header start_headers (content msg) = false) messages →
     picked = []).
Proof.
  revert collecting collected.
  induction messages as [|msg messages IH]; intros collecting collected.
  - exists []. cbn [extract_loop]. rewrite app_nil_r.
    repeat split; [constructor | constructor].
  - cbn [extract_loop].
    destruct (String.eqb (role msg) "assistant") eqn:Hrole.
    + apply String.eqb_eq in Hrole.
      destruct (any_header start_headers (content msg)) eqn:Hstart.
      * destruct (IH true (collected ++ [msg])) as (picked & -> & Hsub & Hall & _).
        exists (msg :: picked). rewrite <- app_assoc.
        split; [reflexivity|]. split; [by constructor|].
        split; [constructor; [split; [exact Hrole | by left] | exact Hall]|].
        intros _ Hnone. apply Forall_cons in Hnone as [Hmsg _].
        rewrite (Hmsg Hrole) in Hstart. discriminate.
      * destruct (any_header end_headers (content msg)) eqn:Hend.
        -- destruct (IH false collected) as (picked & -> & Hsub & Hall & Hnone).
           exists picked. split; [reflexivity|]. split; [by constructor|].
           split; [exact Hall|].
           intros _ Hno. apply Forall_cons in Hno as [_ Hno]. by apply Hnone.
        -- destruct collecting.
           ++ destruct (IH true (collected ++ [msg]))
                as (picked & -> & Hsub & Hall & _).
              exists (msg :: picked). rewrite <- app_assoc.
              split; [reflexivity|]. split; [by constructor|].
              split; [constructor; [split; [exact Hrole | by right] | exact Hall]|].
              discriminate.
           ++ destruct (IH false collected) as (picked & -> & Hsub & Hall & Hnone).
              exists picked. split; [reflexivity|]. split; [by constructor|].
              split; [exact Hall|].
              intros _ Hno. apply Forall_cons in Hno as [_ Hno]. by apply Hnone.
    + destruct (IH collecting collected) as (picked & -> & Hsub & Hall & Hnone).
      exists picked. split; [reflexivity|]. split; [by constructor|].
      split; [exact Hall|].
      intros Hc Hno. apply Forall_cons in Hno as [_ Hno]. by apply Hnone.
Qed.

(** X10. Whatever the messages and the headers, [extract_section_content]
    returns messages of its input, in their order, none twice; each is an
    assistant message that names a start header or names no end header; and
    when no assistant message names a start header it returns nothing. *)
Theorem extract_section_content_selects
    (messages : list Message) (start_headers end_headers : list string) :
  sublist (extract_section_content messages start_headers end_headers) messages ∧
  Forall (λ msg, role msg = "assistant" ∧
                 (any_header start_headers (content msg) = true ∨
                  any_header end_headers (content msg) = false))
    (extract_section_content messages start_headers end_headers) ∧
  (Forall (λ msg, role msg = "assistant" →
                  any_header start_headers (content msg) = false) messages →
   extract_section_content messages start_headers end_headers = []).
Proof.
  unfold extract_section_content.
  destruct (extract_loop_adds start_headers end_headers messages false [])
    as (picked & -> & Hsub & Hall & Hnone).
  cbn [app]. split; [exact Hsub|]. split; [exact Hall|]. by apply Hnone.
Qed.

Lemma display_messages_app (l1 l2 : list Message) :
  display_messages (l1 ++ l2) = display_messages l1 ++ display_messages l2.
Proof.
  induction l1 as [|msg l1 IH]; [reflexivity|].
  cbn [app display_messages]. by rewrite IH, <- app_assoc.
Qed.

(** X12. Under the condition of X11, what the four category tabs print,
    one tab after the other, is what the first tab, All Content, prints:
    every header and every reply once, with the same dividers. *)
Theorem category_tabs_print_all_content (final_state : gmap string value) :
  (∀ key, key ∈ output_keys → Forall plain (messages_at final_state key)) →
  concat (drop 1 (map snd (show_tabs (sections final_state))))
    = display_messages (sections final_state) ∧
  map fst (show_tabs (sections final_state))
    = ["All Content"; "Flagship"; "Seasonal"; "Evergreen"; "Summary"].
Proof.
  intros Hplain. split; [|reflexivity].
  unfold show_tabs. cbn [map snd drop concat]. rewrite app_nil_r.
  rewrite <- !display_messages_app. f_equal.
  by destruct (sections_under_the_tabs final_state Hplain) as (_ & _ & _ & _ & ->).
Qed.

Lemma category_tabs_print_all_content_witness :
  concat (drop 1 (map snd (show_tabs (sections (mock_state "tools")))))
    = display_messages (sections (mock_state "tools")).
Proof.
  exact (proj1 (category_tabs_print_all_content (mock_state "tools") mock_outputs_plain)).
Defined.
